(** * grab-url: the request orchestrator [grab] of [src/grab-api.ts]

    A shallow embedding of the one function the package exports, [grab],
    with the JavaScript values it handles, the history log [grab.log], the
    process-wide [grab.defaults] and [grab.mock], the clock and the
    transport it calls ([fetch]); of [grab.instance] and of the
    [debouncer] [grab] delays itself with; and of the printer of
    [src/log-json.ts], [printJSONStructure], with [getColors],
    [getColorForType] and [getTypeString].

    Scope of the model.
    - Calls run one after the other: a call runs to its end before the next
      one starts (no interleaving at [await]).
    - The response container is an object that can be written to (or is
      left out); a container given as a function is not modelled. The
      options object can be written to as well (it is not frozen).
    - The hooks [onRequest], [onResponse], [onError], [onStream] and
      [logger] stay at their defaults ([null], [log]); what the logger
      prints is not part of the state.
    - An option that is present holds a value of the type its declaration
      in [GrabOptions] gives it; the params hold JSON values or
      [undefined], which [JSON.stringify] takes; numbers are integers;
      the options counted in seconds are rationals, and the products the
      source forms of them are taken exactly.
    - Objects are kept by their own properties. What a read finds under
      a name of [Object.prototype] is modelled for [grab.mock] only; the
      statements keep such names out of the cursor and the field of
      infinite scroll.
    - The options of a call are a value: the count that the catch block
      writes back into the caller's object ([--options.retryAttempts]) is
      handed to the retry it starts; a later call is given its options
      anew.
    - What the source leaves to the platform is a parameter of the model
      ([Env]): the network, [AbortSignal.timeout] and [setTimeout] where
      platforms differ, the text of the timeout error.
    - The printer is given JSON values or [undefined] (no functions).
    - The timers of the [debouncer] run at the instant they are due;
      whether a timer due at the instant of a call runs before that call
      is a parameter. *)

From Stdlib Require Import ZArith QArith Qround String Ascii List Bool Lia Lra DecimalString.
From stdpp Require Import base option list gmap strings.
Import ListNotations.

Set Warnings "-register-all".

Local Open Scope string_scope.
Local Open Scope list_scope.
Local Open Scope Z_scope.

(** ** JavaScript values *)

Module JS.

(** JSON values and [undefined]. An object is the list of its own
    properties in the order [Object.keys] gives them. *)
Inductive JSValue : Type :=
| VUndefined
| VNull
| VBool (b : bool)
| VNum (n : Z)
| VStr (s : string)
| VArr (l : list JSValue)
| VObj (o : list (string * JSValue)).

Abbreviation JSObj := (list (string * JSValue)).

Definition is_undefined (v : JSValue) : bool :=
  match v with VUndefined => true | _ => false end.

(** ToBoolean *)
Definition truthy (v : JSValue) : bool :=
  match v with
  | VUndefined | VNull => false
  | VBool b => b
  | VNum n => negb (n =? 0)
  | VStr s => negb (String.eqb s "")
  | VArr _ | VObj _ => true
  end.

(** Number to string, for integers that JavaScript prints with all their
    digits, which it does below 10^21. *)
Definition show_Z (z : Z) : string := NilZero.string_of_int (Z.to_int z).

Definition show_nat (n : nat) : string := show_Z (Z.of_nat n).

(** Digits of the fraction [r / d] (with [0 <= r < d]), at most [fuel] of
    them, stopping when the expansion ends. *)
Fixpoint frac_digits (fuel : nat) (r d : Z) : string :=
  match fuel with
  | O => ""
  | S fuel' =>
      if r =? 0 then ""
      else show_Z (10 * r / d) +:+ frac_digits fuel' (10 * r mod d) d
  end.

(** Number to string for a rational from 10^-6 to 10^21 whose decimal
    expansion ends within the digits a double holds, where JavaScript
    prints that expansion. *)
Definition show_Q (q : Q) : string :=
  let n := Qnum q in
  let d := Z.pos (Qden q) in
  let a := Z.abs n in
  let int_part := show_Z (a / d) in
  let frac := frac_digits 17 (a mod d) d in
  (if n <? 0 then "-" else "") +:+ int_part
    +:+ (if String.eqb frac "" then "" else "." +:+ frac).

Fixpoint join (sep : string) (l : list string) : string :=
  match l with
  | [] => ""
  | [x] => x
  | x :: l' => x +:+ sep +:+ join sep l'
  end.

Definition hex_digit (n : N) : ascii :=
  match n with
  | 0%N => "0" | 1%N => "1" | 2%N => "2" | 3%N => "3" | 4%N => "4"
  | 5%N => "5" | 6%N => "6" | 7%N => "7" | 8%N => "8" | 9%N => "9"
  | 10%N => "a" | 11%N => "b" | 12%N => "c" | 13%N => "d" | 14%N => "e"
  | _ => "f"
  end%char.

Definition str1 (c : ascii) : string := String c EmptyString.

(** The escape JSON.stringify writes for one character of a string. *)
Definition json_escape (c : ascii) : string :=
  let n := N_of_ascii c in
  if (n =? 34)%N then "\" +:+ str1 c
  else if (n =? 92)%N then "\\"
  else if (n =? 8)%N then "\b"
  else if (n =? 12)%N then "\f"
  else if (n =? 10)%N then "\n"
  else if (n =? 13)%N then "\r"
  else if (n =? 9)%N then "\t"
  else if (n <? 32)%N then
    "\u00" +:+ str1 (hex_digit (n / 16)) +:+ str1 (hex_digit (n mod 16))
  else str1 c.

Fixpoint json_escape_all (s : string) : string :=
  match s with
  | EmptyString => ""
  | String c s' => json_escape c +:+ json_escape_all s'
  end.

(** The double quote *)
Definition quote_char : ascii := ascii_of_nat 34.

Definition json_quote (s : string) : string :=
  str1 quote_char +:+ json_escape_all s +:+ str1 quote_char.

(** JSON.stringify of a value in array position or at top level when it
    is not [undefined]: [undefined] in an array prints as [null], a
    property whose value is [undefined] is left out. *)
Fixpoint JSON_stringify_value (v : JSValue) : string :=
  match v with
  | VUndefined => "null"
  | VNull => "null"
  | VBool true => "true"
  | VBool false => "false"
  | VNum n => show_Z n
  | VStr s => json_quote s
  | VArr l =>
      "[" +:+ join ","
        ((fix items (l : list JSValue) : list string :=
            match l with
            | [] => []
            | x :: l' => JSON_stringify_value x :: items l'
            end) l) +:+ "]"
  | VObj o =>
      "{" +:+ join ","
        ((fix members (o : list (string * JSValue)) : list string :=
            match o with
            | [] => []
            | (k, x) :: o' =>
                if is_undefined x then members o'
                else (json_quote k +:+ ":" +:+ JSON_stringify_value x)
                       :: members o'
            end) o) +:+ "}"
  end.

(** [JSON.stringify(v)]: the string, or [undefined] for [undefined]. *)
Definition JSON_stringify (v : JSValue) : option string :=
  match v with
  | VUndefined => None
  | _ => Some (JSON_stringify_value v)
  end.

(** [JSON.stringify(o)] for an object [o]. *)
Definition JSON_stringify_obj (o : JSObj) : string :=
  JSON_stringify_value (VObj o).

(** The members JSON.stringify prints for an object, in order. *)
Fixpoint json_members (o : JSObj) : list string :=
  match o with
  | [] => []
  | (k, x) :: o' =>
      if is_undefined x then json_members o'
      else (json_quote k +:+ ":" +:+ JSON_stringify_value x) :: json_members o'
  end.

(** [String(v)] *)
Fixpoint js_toString (v : JSValue) : string :=
  match v with
  | VUndefined => "undefined"
  | VNull => "null"
  | VBool true => "true"
  | VBool false => "false"
  | VNum n => show_Z n
  | VStr s => s
  | VArr l =>
      join ","
        ((fix items (l : list JSValue) : list string :=
            match l with
            | [] => []
            | x :: l' =>
                (match x with
                 | VUndefined | VNull => ""
                 | _ => js_toString x
                 end) :: items l'
            end) l)
  | VObj _ => "[object Object]"
  end.

(** *** Objects *)

(** A key that is an array index ("0", "1", ... without leading zeros,
    below 2^32 - 1): such keys come first, in ascending order, whatever
    the order they were set in. *)
Fixpoint parse_digits (s : string) (acc : N) : option N :=
  match s with
  | EmptyString => Some acc
  | String c s' =>
      let n := N_of_ascii c in
      if ((48 <=? n) && (n <=? 57))%N
      then parse_digits s' (10 * acc + (n - 48))%N
      else None
  end.

Definition index_of_key (k : string) : option N :=
  match k with
  | EmptyString => None
  | _ =>
      match parse_digits k 0%N with
      | Some n =>
          if String.eqb (show_Z (Z.of_N n)) k && (n <? 4294967295)%N
          then Some n else None
      | None => None
      end
  end.

(** [o[k]] *)
Fixpoint obj_get (k : string) (o : JSObj) : JSValue :=
  match o with
  | [] => VUndefined
  | (k', v) :: o' => if String.eqb k' k then v else obj_get k o'
  end.

Fixpoint obj_has (k : string) (o : JSObj) : bool :=
  match o with
  | [] => false
  | (k', _) :: o' => String.eqb k' k || obj_has k o'
  end.

Fixpoint obj_replace (k : string) (v : JSValue) (o : JSObj) : JSObj :=
  match o with
  | [] => []
  | (k', v') :: o' =>
      if String.eqb k' k then (k', v) :: o' else (k', v') :: obj_replace k v o'
  end.

(** The place of a new index key [n]: before the first property that is
    not an index or is a larger index. *)
Fixpoint obj_insert_index (n : N) (k : string) (v : JSValue) (o : JSObj)
  : JSObj :=
  match o with
  | [] => [(k, v)]
  | (k', v') :: o' =>
      match index_of_key k' with
      | Some n' =>
          if (n' <? n)%N then (k', v') :: obj_insert_index n k v o'
          else (k, v) :: o
      | None => (k, v) :: o
      end
  end.

(** The property [k: v] that an object literal or a spread defines on
    [o]; for a key other than [__proto__] this is the assignment
    [o[k] = v] as well. *)
Definition obj_set (k : string) (v : JSValue) (o : JSObj) : JSObj :=
  if obj_has k o then obj_replace k v o
  else match index_of_key k with
       | Some n => obj_insert_index n k v o
       | None => o ++ [(k, v)]
       end.

(** The names of the properties an object inherits from
    [Object.prototype]: a read [o[k]] of one of them finds a value where
    [o] has no property [k] of its own. *)
Definition Object_prototype : list string :=
  ["constructor"; "__defineGetter__"; "__defineSetter__";
   "hasOwnProperty"; "__lookupGetter__"; "__lookupSetter__";
   "isPrototypeOf"; "propertyIsEnumerable"; "toString"; "valueOf";
   "__proto__"; "toLocaleString"].

Definition inherited (k : string) : bool :=
  existsb (String.eqb k) Object_prototype.

(** The assignment [o[k] = v] to an object whose prototype is
    [Object.prototype]: where [o] has no property [__proto__] of its own
    the key [__proto__] goes to the setter it inherits, which changes
    the prototype of [o] and none of its properties. *)
Definition obj_assign (k : string) (v : JSValue) (o : JSObj) : JSObj :=
  if String.eqb k "__proto__" && negb (obj_has k o) then o
  else obj_set k v o.




(** [delete o[k]] *)
Fixpoint obj_delete (k : string) (o : JSObj) : JSObj :=
  match o with
  | [] => []
  | (k', v) :: o' =>
      if String.eqb k' k then o' else (k', v) :: obj_delete k o'
  end.

(** [Object.keys(o)] *)
Definition obj_keys (o : JSObj) : list string := map fst o.

(** [{...a, ...b}] (on a copy of [a]) *)
Definition obj_spread (a b : JSObj) : JSObj :=
  fold_left (fun acc kv => obj_set (fst kv) (snd kv) acc) b a.

(** [for (let key of Object.keys(o)) o[key] = undefined] *)
Definition obj_clear (o : JSObj) : JSObj :=
  map (fun kv => (fst kv, VUndefined)) o.

(** A JavaScript object has each key once. *)
Definition wf_obj (o : JSObj) : Prop := NoDup (obj_keys o).

(** The own enumerable properties of a value whose [typeof] is "object":
    [Object.keys(v)] with [v[key]]; [None] where [Object.keys] throws
    (for [null]). *)
Fixpoint indexed_from (i : nat) (l : list JSValue) : JSObj :=
  match l with
  | [] => []
  | x :: l' => (show_nat i, x) :: indexed_from (S i) l'
  end.

Definition typeof_object (v : JSValue) : bool :=
  match v with
  | VNull | VArr _ | VObj _ => true
  | _ => false
  end.

Definition own_entries (v : JSValue) : option JSObj :=
  match v with
  | VObj o => Some o
  | VArr l => Some (indexed_from 0 l)
  | _ => None
  end.

(** [v?.length] *)
Definition js_length (v : JSValue) : JSValue :=
  match v with
  | VArr l => VNum (Z.of_nat (List.length l))
  | VStr s => VNum (Z.of_nat (String.length s))
  | VObj o => obj_get "length" o
  | _ => VUndefined
  end.

Fixpoint chars_of (s : string) : list JSValue :=
  match s with
  | EmptyString => []
  | String c s' => VStr (str1 c) :: chars_of s'
  end.

(** The elements [...v] spreads into an array; [None] where [v] is not
    iterable and the spread throws. *)
Definition js_iter (v : JSValue) : option (list JSValue) :=
  match v with
  | VArr l => Some l
  | VStr s => Some (chars_of s)
  | _ => None
  end.

(** [v + 1]; [None] stands for NaN. *)
Definition js_add1 (v : JSValue) : option JSValue :=
  match v with
  | VUndefined => None
  | VNull => Some (VNum 1)
  | VBool b => Some (VNum (if b then 2 else 1))
  | VNum n => Some (VNum (n + 1))
  | VStr s => Some (VStr (s +:+ "1"))
  | VArr _ | VObj _ => Some (VStr (js_toString v +:+ "1"))
  end.

(** [a || b] where [a] may be NaN *)
Definition js_or (a : option JSValue) (b : JSValue) : JSValue :=
  match a with
  | Some v => if truthy v then v else b
  | None => b
  end.

End JS.

(** ** The structure printer of [src/log-json.ts] *)

Module LogJSON.
Import JS.

(** [typeof v] *)
Definition typeof (v : JSValue) : string :=
  match v with
  | VUndefined => "undefined"
  | VNull | VArr _ | VObj _ => "object"
  | VBool _ => "boolean"
  | VNum _ => "number"
  | VStr _ => "string"
  end.

Inductive ColorFormat : Type := html | ansi.

(** [colorMap]: the color names with their [[ansiCode, hexValue]], in the
    order of the literal. *)
Definition colorMap : list (string * (Z * string)) :=
  [("reset", (0, "000000"));
   ("black", (30, "000000"));
   ("red", (31, "ff0000"));
   ("green", (32, "00ff00"));
   ("yellow", (33, "ffff00"));
   ("blue", (34, "0000ff"));
   ("magenta", (35, "ff00ff"));
   ("cyan", (36, "00ffff"));
   ("white", (37, "ffffff"));
   ("gray", (90, "808080"));
   ("brightRed", (91, "ff5555"));
   ("brightGreen", (92, "55ff55"));
   ("brightYellow", (93, "ffff55"));
   ("brightBlue", (94, "5555ff"));
   ("brightMagenta", (95, "ff55ff"));
   ("brightCyan", (96, "55ffff"));
   ("brightWhite", (97, "ffffff"));
   ("bgBlack", (40, "000000"));
   ("bgRed", (41, "ff0000"));
   ("bgGreen", (42, "00ff00"));
   ("bgYellow", (43, "ffff00"));
   ("bgBlue", (44, "0000ff"));
   ("bgMagenta", (45, "ff00ff"));
   ("bgCyan", (46, "00ffff"));
   ("bgWhite", (47, "ffffff"));
   ("bgGray", (100, "808080"));
   ("bgBrightRed", (101, "ff8888"));
   ("bgBrightGreen", (102, "88ff88"));
   ("bgBrightYellow", (103, "ffff88"));
   ("bgBrightBlue", (104, "8888ff"));
   ("bgBrightMagenta", (105, "ff88ff"));
   ("bgBrightCyan", (106, "88ffff"));
   ("bgBrightWhite", (107, "ffffff"))].

(** The escape character [\x1b] and the line feed *)
Definition ESC : string := str1 (ascii_of_nat 27).
Definition LF : string := str1 (ascii_of_nat 10).

(** [getColors(format)]: the names of [colorMap], each with ['#' +
    hexCode] or ['\x1b[' + ansiCode + 'm']. The names are distinct and
    none is an array index, so the assignments [colors[name] = ...] keep
    the order of [colorMap]. *)
Definition getColors (format : ColorFormat) : list (string * string) :=
  map (fun entry =>
         let '(name, (ansiCode, hexCode)) := entry in
         (name,
          match format with
          | html => "#" +:+ hexCode
          | ansi => ESC +:+ "[" +:+ show_Z ansiCode +:+ "m"
          end)) colorMap.

(** [colors.name] as a string concatenation reads it *)
Fixpoint color (name : string) (colors : list (string * string)) : string :=
  match colors with
  | [] => "undefined"
  | (k, c) :: colors' => if String.eqb k name then c else color name colors'
  end.

(** [getColorForType(value)], for the values JSON has and [undefined] *)
Definition getColorForType (value : JSValue) : string :=
  let colors := getColors ansi in
  match value with
  | VStr _ => color "yellow" colors
  | VNum _ => color "cyan" colors
  | VBool _ => color "magenta" colors
  | VNull => color "gray" colors
  | VArr _ => color "blue" colors
  | VObj _ => color "green" colors
  | VUndefined => color "white" colors
  end.

(** [getTypeString(value)] *)
Fixpoint getTypeString (value : JSValue) : string :=
  match value with
  | VStr _ => str1 quote_char +:+ str1 quote_char
  | VNum _ => "number"
  | VBool _ => "bool"
  | VNull => "null"
  | VArr l =>
      match l with
      | x :: _ => "[" +:+ getTypeString x +:+ "]"
      | [] => "[]"
      end
  | VObj _ => "{...}"
  | VUndefined => typeof value
  end.

(** [s.repeat(n)] *)
Fixpoint String_repeat (s : string) (n : nat) : string :=
  match n with
  | O => ""
  | S n' => s +:+ String_repeat s n'
  end.

(** [obj.every((item) => typeof item === typeof obj[0])] *)
Definition every_typeof_first (l : list JSValue) : bool :=
  forallb (fun item => String.eqb (typeof item) (typeof (nth 0 l VUndefined)))
    l.

(** The value that is not an object, or is [null]: its type in its
    color. *)
Definition primitive (colors : list (string * string)) (obj : JSValue)
  : string :=
  getColorForType obj +:+ getTypeString obj +:+ color "reset" colors.

(** One turn of [keys.forEach((key, index) => ...)]: what [result] gains
    for the property [key]; [nested] is [printJSONStructure(value, indent
    + 1)], which the code calls where [value] is an object or an array. *)
Definition property (colors : list (string * string)) (pad key : string)
  (value : JSValue) (nested : string) (last : bool) : string :=
  let color_ := getColorForType value in
  pad +:+ "  "
  +:+ match value with
      | VObj _ => color_ +:+ key +:+ color "reset" colors +:+ ": " +:+ nested
      | VArr _ => color_ +:+ key +:+ color "reset" colors +:+ ": " +:+ nested
      | _ => color_ +:+ key +:+ ": " +:+ getTypeString value
             +:+ color "reset" colors
      end
  +:+ (if last then "" else ",") +:+ LF.

(** [printJSONStructure(obj, indent, colorFormat)]. The calls the
    function makes to itself leave [colorFormat] at its default. Where
    every item of an array has the type of the first, the branch of the
    array does not return: [result] is started anew by the part for
    objects, which takes the array by its keys ["0"], ["1"], ... *)
Fixpoint printJSONStructure (obj : JSValue) (indent : nat)
  (colorFormat : ColorFormat) {struct obj} : string :=
  let colors := getColors colorFormat in
  let pad := String_repeat "  " indent in
  match obj with
  | VArr l =>
      let result := color "blue" colors +:+ "[" +:+ color "reset" colors in
      let result :=
        if bool_decide (l = []) then result else result +:+ LF in
      if every_typeof_first l
      then
        let result :=
          result +:+ pad +:+ "  "
          +:+ match l with
              | x :: _ => printJSONStructure x (S indent) ansi
              | [] => primitive (getColors ansi) VUndefined
              end
          +:+ "," +:+ LF in
        let result := color "green" colors +:+ "{" +:+ color "reset" colors in
        let result :=
          if bool_decide (l = []) then result else result +:+ LF in
        let result :=
          result
          +:+ (fix forEach (index : nat) (l : list JSValue) : string :=
                 match l with
                 | [] => ""
                 | value :: l' =>
                     property colors pad (show_nat index) value
                       (printJSONStructure value (S indent) ansi)
                       (bool_decide (l' = []))
                     +:+ forEach (S index) l'
                 end) O l in
        result +:+ pad +:+ color "green" colors +:+ "}"
        +:+ color "reset" colors
      else
        let result :=
          result
          +:+ (fix forEach (l : list JSValue) : string :=
                 match l with
                 | [] => ""
                 | item :: l' =>
                     pad +:+ "  " +:+ printJSONStructure item (S indent) ansi
                     +:+ (if bool_decide (l' = []) then "" else ",")
                     +:+ LF +:+ forEach l'
                 end) l in
        result +:+ pad +:+ color "blue" colors +:+ "]"
        +:+ color "reset" colors
  | VObj o =>
      let result := color "green" colors +:+ "{" +:+ color "reset" colors in
      let result :=
        if bool_decide (o = []) then result else result +:+ LF in
      let result :=
        result
        +:+ (fix forEach (o : list (string * JSValue)) : string :=
               match o with
               | [] => ""
               | (key, value) :: o' =>
                   property colors pad key value
                     (printJSONStructure value (S indent) ansi)
                     (bool_decide (o' = []))
                   +:+ forEach o'
               end) o in
      result +:+ pad +:+ color "green" colors +:+ "}" +:+ color "reset" colors
  | _ => primitive colors obj
  end.

(** The value with what is written in it taken out: every string made
    [""], every number [0], every boolean [false]; the keys, the lengths
    and the nesting stay. *)
Fixpoint shape (v : JSValue) : JSValue :=
  match v with
  | VBool _ => VBool false
  | VNum _ => VNum 0
  | VStr _ => VStr ""
  | VArr l =>
      VArr ((fix items (l : list JSValue) : list JSValue :=
               match l with
               | [] => []
               | x :: l' => shape x :: items l'
               end) l)
  | VObj o =>
      VObj ((fix members (o : list (string * JSValue))
               : list (string * JSValue) :=
               match o with
               | [] => []
               | (k, x) :: o' => (k, shape x) :: members o'
               end) o)
  | VUndefined | VNull => v
  end.

End LogJSON.

(** ** The orchestrator's data *)

Module Grab.
Import JS.

(** A response container is an object on the heap: the caller's
    pre-initialized [response], or a fresh [{}]. *)
Abbreviation loc := nat.

(** [infiniteScroll: [page key, response field to concatenate, element]] *)
Record InfiniteScroll : Type := {
  paginateKey : string;
  paginateResult : string;
  paginateElement : option string
}.

(** The options object as the caller writes it: [None] is a key left
    out; [o_params] holds every key that is not an option, in order. *)
Record GrabOptions : Type := {
  o_headers : option JSObj;
  o_response : option loc;
  o_method : option string;
  o_cache : option bool;
  o_cacheForTime : option Q;
  o_timeout : option Q;
  o_baseURL : option string;
  o_cancelOngoingIfNew : option bool;
  o_cancelNewIfOngoing : option bool;
  o_rateLimit : option Q;
  o_debug : option bool;
  o_infiniteScroll : option InfiniteScroll;
  o_setDefaults : option bool;
  o_retryAttempts : option Z;
  o_repeatEvery : option Q;
  o_repeat : option Z;
  o_debounce : option Q;
  o_regrabOnStale : option bool;
  o_regrabOnFocus : option bool;
  o_regrabOnNetwork : option bool;
  o_post : option bool;
  o_put : option bool;
  o_patch : option bool;
  o_body : option JSValue;
  o_params : JSObj
}.

(** [{}] *)
Definition no_options : GrabOptions :=
  {| o_headers := None; o_response := None; o_method := None;
     o_cache := None; o_cacheForTime := None; o_timeout := None;
     o_baseURL := None; o_cancelOngoingIfNew := None;
     o_cancelNewIfOngoing := None; o_rateLimit := None; o_debug := None;
     o_infiniteScroll := None; o_setDefaults := None;
     o_retryAttempts := None; o_repeatEvery := None; o_repeat := None;
     o_debounce := None; o_regrabOnStale := None; o_regrabOnFocus := None;
     o_regrabOnNetwork := None; o_post := None; o_put := None;
     o_patch := None; o_body := None; o_params := [] |}.

(** The later layer wins key by key. *)
Definition over {A : Type} (below above : option A) : option A :=
  match above with
  | Some x => Some x
  | None => below
  end.

(** [{...d, ...o}] *)
Definition spread_options (d o : GrabOptions) : GrabOptions :=
  {| o_headers := over (o_headers d) (o_headers o);
     o_response := over (o_response d) (o_response o);
     o_method := over (o_method d) (o_method o);
     o_cache := over (o_cache d) (o_cache o);
     o_cacheForTime := over (o_cacheForTime d) (o_cacheForTime o);
     o_timeout := over (o_timeout d) (o_timeout o);
     o_baseURL := over (o_baseURL d) (o_baseURL o);
     o_cancelOngoingIfNew :=
       over (o_cancelOngoingIfNew d) (o_cancelOngoingIfNew o);
     o_cancelNewIfOngoing :=
       over (o_cancelNewIfOngoing d) (o_cancelNewIfOngoing o);
     o_rateLimit := over (o_rateLimit d) (o_rateLimit o);
     o_debug := over (o_debug d) (o_debug o);
     o_infiniteScroll := over (o_infiniteScroll d) (o_infiniteScroll o);
     o_setDefaults := over (o_setDefaults d) (o_setDefaults o);
     o_retryAttempts := over (o_retryAttempts d) (o_retryAttempts o);
     o_repeatEvery := over (o_repeatEvery d) (o_repeatEvery o);
     o_repeat := over (o_repeat d) (o_repeat o);
     o_debounce := over (o_debounce d) (o_debounce o);
     o_regrabOnStale := over (o_regrabOnStale d) (o_regrabOnStale o);
     o_regrabOnFocus := over (o_regrabOnFocus d) (o_regrabOnFocus o);
     o_regrabOnNetwork := over (o_regrabOnNetwork d) (o_regrabOnNetwork o);
     o_post := over (o_post d) (o_post o);
     o_put := over (o_put d) (o_put o);
     o_patch := over (o_patch d) (o_patch o);
     o_body := over (o_body d) (o_body o);
     o_params := obj_spread (o_params d) (o_params o) |}.

(** The object [...options] spreads: [{}] for [undefined]. *)
Definition spreadable (options : option GrabOptions) : GrabOptions :=
  match options with
  | Some o => o
  | None => no_options
  end.

(** [{...options, debounce: d}] and its like. *)
Definition with_debounce (d : Q) (o : GrabOptions) : GrabOptions :=
  spread_options o
    {| o_headers := None; o_response := None; o_method := None;
       o_cache := None; o_cacheForTime := None; o_timeout := None;
       o_baseURL := None; o_cancelOngoingIfNew := None;
       o_cancelNewIfOngoing := None; o_rateLimit := None; o_debug := None;
       o_infiniteScroll := None; o_setDefaults := None;
       o_retryAttempts := None; o_repeatEvery := None; o_repeat := None;
       o_debounce := Some d; o_regrabOnStale := None;
       o_regrabOnFocus := None; o_regrabOnNetwork := None; o_post := None;
       o_put := None; o_patch := None; o_body := None; o_params := [] |}.

Definition with_repeat (r : Z) (o : GrabOptions) : GrabOptions :=
  spread_options o
    {| o_headers := None; o_response := None; o_method := None;
       o_cache := None; o_cacheForTime := None; o_timeout := None;
       o_baseURL := None; o_cancelOngoingIfNew := None;
       o_cancelNewIfOngoing := None; o_rateLimit := None; o_debug := None;
       o_infiniteScroll := None; o_setDefaults := None;
       o_retryAttempts := None; o_repeatEvery := None; o_repeat := Some r;
       o_debounce := None; o_regrabOnStale := None;
       o_regrabOnFocus := None; o_regrabOnNetwork := None; o_post := None;
       o_put := None; o_patch := None; o_body := None; o_params := [] |}.

Definition with_retryAttempts (n : Z) (o : GrabOptions) : GrabOptions :=
  spread_options o
    {| o_headers := None; o_response := None; o_method := None;
       o_cache := None; o_cacheForTime := None; o_timeout := None;
       o_baseURL := None; o_cancelOngoingIfNew := None;
       o_cancelNewIfOngoing := None; o_rateLimit := None; o_debug := None;
       o_infiniteScroll := None; o_setDefaults := None;
       o_retryAttempts := Some n; o_repeatEvery := None; o_repeat := None;
       o_debounce := None; o_regrabOnStale := None;
       o_regrabOnFocus := None; o_regrabOnNetwork := None; o_post := None;
       o_put := None; o_patch := None; o_body := None; o_params := [] |}.

Definition with_cache (c : bool) (o : GrabOptions) : GrabOptions :=
  spread_options o
    {| o_headers := None; o_response := None; o_method := None;
       o_cache := Some c; o_cacheForTime := None; o_timeout := None;
       o_baseURL := None; o_cancelOngoingIfNew := None;
       o_cancelNewIfOngoing := None; o_rateLimit := None; o_debug := None;
       o_infiniteScroll := None; o_setDefaults := None;
       o_retryAttempts := None; o_repeatEvery := None; o_repeat := None;
       o_debounce := None; o_regrabOnStale := None;
       o_regrabOnFocus := None; o_regrabOnNetwork := None; o_post := None;
       o_put := None; o_patch := None; o_body := None; o_params := [] |}.

(** [{...options, key: undefined}] for an option key: the key reads as
    left out. *)
Definition without_setDefaults (o : GrabOptions) : GrabOptions :=
  {| o_headers := o_headers o; o_response := o_response o;
     o_method := o_method o; o_cache := o_cache o;
     o_cacheForTime := o_cacheForTime o; o_timeout := o_timeout o;
     o_baseURL := o_baseURL o;
     o_cancelOngoingIfNew := o_cancelOngoingIfNew o;
     o_cancelNewIfOngoing := o_cancelNewIfOngoing o;
     o_rateLimit := o_rateLimit o; o_debug := o_debug o;
     o_infiniteScroll := o_infiniteScroll o; o_setDefaults := None;
     o_retryAttempts := o_retryAttempts o;
     o_repeatEvery := o_repeatEvery o; o_repeat := o_repeat o;
     o_debounce := o_debounce o; o_regrabOnStale := o_regrabOnStale o;
     o_regrabOnFocus := o_regrabOnFocus o;
     o_regrabOnNetwork := o_regrabOnNetwork o; o_post := o_post o;
     o_put := o_put o; o_patch := o_patch o; o_body := o_body o;
     o_params := o_params o |}.

Definition without_repeatEvery (o : GrabOptions) : GrabOptions :=
  {| o_headers := o_headers o; o_response := o_response o;
     o_method := o_method o; o_cache := o_cache o;
     o_cacheForTime := o_cacheForTime o; o_timeout := o_timeout o;
     o_baseURL := o_baseURL o;
     o_cancelOngoingIfNew := o_cancelOngoingIfNew o;
     o_cancelNewIfOngoing := o_cancelNewIfOngoing o;
     o_rateLimit := o_rateLimit o; o_debug := o_debug o;
     o_infiniteScroll := o_infiniteScroll o;
     o_setDefaults := o_setDefaults o;
     o_retryAttempts := o_retryAttempts o;
     o_repeatEvery := None; o_repeat := o_repeat o;
     o_debounce := o_debounce o; o_regrabOnStale := o_regrabOnStale o;
     o_regrabOnFocus := o_regrabOnFocus o;
     o_regrabOnNetwork := o_regrabOnNetwork o; o_post := o_post o;
     o_put := o_put o; o_patch := o_patch o; o_body := o_body o;
     o_params := o_params o |}.

(** *** The history log, the transport and the state *)

(** [GrabLogEntry]: the three places that put an entry in the log write
    [{path, request, lastFetchTime, controller}] at the start of a call,
    [{path, request, response, lastFetchTime}] after a success and
    [{path, request, error}] after a failure. *)
Record GrabLogEntry : Type := {
  e_path : string;
  e_request : string;
  e_response : option loc;
  e_error : option string;
  e_lastFetchTime : option Z;
  e_controller : option nat;
  e_currentPage : option JSValue
}.

(** The [signal] of a request: that of the [AbortController] numbered
    [id], or [AbortSignal.timeout(ms)]. *)
Inductive Signal : Type :=
| SignalOfController (id : nat)
| SignalTimeout (ms : Z).

(** [fetch(url, fetchParams)] *)
Record FetchRequest : Type := {
  f_url : string;
  f_method : string;
  f_headers : JSObj;
  f_body : JSValue;
  f_redirect : string;
  f_cache : string;
  f_signal : option Signal
}.

(** What comes back: [fetch] rejects with an error of that message; or
    the status is not ok ([res.status], a number of three digits, and
    [res.statusText]); or decoding the body fails with [e]; or the body
    decodes to [res]. *)
Inductive FetchResult : Type :=
| FetchRejects (message : string)
| FetchNotOk (status : Z) (statusText : string)
| FetchBodyFails (e : string)
| FetchBody (res : JSValue).

Record FetchReply : Type := {
  elapsed : Z;
  result : FetchResult
}.

(** The network: the reply to the [n]-th request sent (from 0), were it
    left to run to its end, and the milliseconds it takes. *)
Definition Transport : Type := nat -> FetchRequest -> FetchReply.

(** [GrabMockHandler]; a [response] that is not a function is the
    constant function. *)
Record GrabMockHandler : Type := {
  m_response : JSObj -> JSValue;
  m_method : option string;
  m_params : option JSObj;
  m_delay : option Q
}.

(** A deferred [grab(path, options)]: what [setTimeout], [setInterval]
    and [addEventListener] are given. *)
Record Deferred : Type := {
  d_path : string;
  d_options : GrabOptions
}.

Inductive Timer : Type :=
| SetTimeout (ms : Q) (task : Deferred)
| SetInterval (ms : Q) (task : Deferred).

Record Listener : Type := {
  l_event : string;
  l_task : Deferred
}.

(** What is outside the function: the network, whether there is a
    [window], [process.env.SERVER_API_URL], and what the platform makes
    of the calls whose outcome the source leaves to it:
    - [other_timeout ms]: the milliseconds of the signal that
      [AbortSignal.timeout(ms)] makes for a delay above -1 that is not a
      whole number from 0 to 4294967295, or [None] where the platform
      refuses it (Node refuses them all, a browser cuts the fraction off
      and takes the delay up to 2^53 - 1);
    - [RangeError_message ms]: the message of the error
      [AbortSignal.timeout(ms)] throws for a delay it refuses;
    - [TimeoutError_message]: the message of the error [fetch] rejects
      with when a timeout signal aborts it;
    - [other_delay ms]: the milliseconds [setTimeout] waits for a delay
      that is not a whole number from 1 to 2147483647 (Node waits 1 ms
      below 1 and above 2147483647, a browser takes the delay as a 32-bit
      integer). *)
Record Env : Type := {
  transport : Transport;
  has_window : bool;
  SERVER_API_URL : option string;
  other_timeout : Q -> option Z;
  RangeError_message : Q -> string;
  TimeoutError_message : string;
  other_delay : Q -> Z
}.

(** A whole number from [lo] to [hi] *)
Definition whole_in (lo hi : Z) (q : Q) : bool :=
  Qeq_bool q (inject_Z (Qfloor q)) && (lo <=? Qfloor q) && (Qfloor q <=? hi).

(** [AbortSignal.timeout(ms)]: the message of the error it throws, or
    the milliseconds after which the signal it makes aborts. Every
    platform makes a signal for a whole number from 0 to 4294967295, and
    every platform throws for a delay of -1 or below; in between, and
    above, platforms differ. *)
Definition AbortSignal_timeout (env : Env) (ms : Q) : string + Z :=
  if whole_in 0 4294967295 ms then inr (Qfloor ms)
  else if Qle_bool ms (-1) then inl (RangeError_message env ms)
  else match other_timeout env ms with
       | Some after => inr (Z.max 0 after)
       | None => inl (RangeError_message env ms)
       end.

(** [setTimeout(f, ms)]: the milliseconds after which [f] runs. Every
    platform waits [ms] for a whole number from 1 to 2147483647; for
    another delay a browser and Node do not agree. *)
Definition setTimeout_delay (env : Env) (ms : Q) : Z :=
  if whole_in 1 2147483647 ms then Qfloor ms
  else Z.max 0 (other_delay env ms).

(** The state [grab] reads and writes: the heap of containers,
    [grab.log] (newest first), [grab.defaults], [grab.mock], the clock
    [Date.now()] in milliseconds, the requests given to [fetch] (oldest
    first), the timers and listeners registered, the controllers aborted
    and the number of controllers created. *)
Record State : Type := {
  heap : list JSObj;
  log : list GrabLogEntry;
  defaults : GrabOptions;
  mock : gmap string GrabMockHandler;
  now : Z;
  fetched : list FetchRequest;
  timers : list Timer;
  listeners : list Listener;
  aborted : list nat;
  controllers : nat
}.

Definition set_heap (h : list JSObj) (st : State) : State :=
  {| heap := h; log := log st; defaults := defaults st; mock := mock st;
     now := now st; fetched := fetched st; timers := timers st;
     listeners := listeners st; aborted := aborted st;
     controllers := controllers st |}.

Definition set_log (l : list GrabLogEntry) (st : State) : State :=
  {| heap := heap st; log := l; defaults := defaults st; mock := mock st;
     now := now st; fetched := fetched st; timers := timers st;
     listeners := listeners st; aborted := aborted st;
     controllers := controllers st |}.

Definition set_defaults (d : GrabOptions) (st : State) : State :=
  {| heap := heap st; log := log st; defaults := d; mock := mock st;
     now := now st; fetched := fetched st; timers := timers st;
     listeners := listeners st; aborted := aborted st;
     controllers := controllers st |}.

Definition set_now (t : Z) (st : State) : State :=
  {| heap := heap st; log := log st; defaults := defaults st;
     mock := mock st; now := t; fetched := fetched st; timers := timers st;
     listeners := listeners st; aborted := aborted st;
     controllers := controllers st |}.

Definition set_fetched (f : list FetchRequest) (st : State) : State :=
  {| heap := heap st; log := log st; defaults := defaults st;
     mock := mock st; now := now st; fetched := f; timers := timers st;
     listeners := listeners st; aborted := aborted st;
     controllers := controllers st |}.

Definition set_timers (t : list Timer) (st : State) : State :=
  {| heap := heap st; log := log st; defaults := defaults st;
     mock := mock st; now := now st; fetched := fetched st; timers := t;
     listeners := listeners st; aborted := aborted st;
     controllers := controllers st |}.

Definition set_listeners (l : list Listener) (st : State) : State :=
  {| heap := heap st; log := log st; defaults := defaults st;
     mock := mock st; now := now st; fetched := fetched st;
     timers := timers st; listeners := l; aborted := aborted st;
     controllers := controllers st |}.

Definition set_aborted (a : list nat) (st : State) : State :=
  {| heap := heap st; log := log st; defaults := defaults st;
     mock := mock st; now := now st; fetched := fetched st;
     timers := timers st; listeners := listeners st; aborted := a;
     controllers := controllers st |}.

Definition set_controllers (n : nat) (st : State) : State :=
  {| heap := heap st; log := log st; defaults := defaults st;
     mock := mock st; now := now st; fetched := fetched st;
     timers := timers st; listeners := listeners st; aborted := aborted st;
     controllers := n |}.

(** The state when the module has just been loaded:
    [grab.log = []; grab.mock = {}; grab.defaults = {}]. *)
Definition initial (containers : list JSObj) (t : Z) : State :=
  {| heap := containers; log := []; defaults := no_options; mock := ∅;
     now := t; fetched := []; timers := []; listeners := [];
     aborted := []; controllers := 0 |}.

(** ** The function [grab] *)

(** What the promise settles with: the container, [undefined], or the
    function [debouncer] hands back. *)
Inductive Returned : Type :=
| RetContainer (response : loc)
| RetUndefined
| RetFunction (executedFunction : Deferred) (wait : Q).

Inductive Settled : Type :=
| Resolved (v : Returned)
| Rejected (message : string).

(** How the [try] block ends: [return v], or an error thrown while the
    variable [params] held the given object. *)
Inductive Completion : Type :=
| Return (v : Returned)
| Throw (message : string) (params : JSObj).

(** The [try] block threads the state and stops at the first [return] or
    [throw]. *)
Inductive Step (A : Type) : Type :=
| Next (a : A)
| Stop (c : Completion).
Arguments Next {A} a.
Arguments Stop {A} c.

Definition Try (A : Type) : Type := State -> State * Step A.

Definition ret {A : Type} (a : A) : Try A := fun st => (st, Next a).

Definition bind {A B : Type} (c : Try A) (k : A -> Try B) : Try B :=
  fun st =>
    match c st with
    | (st', Next a) => k a st'
    | (st', Stop e) => (st', Stop e)
    end.

Definition throw {A : Type} (message : string) (params : JSObj) : Try A :=
  fun st => (st, Stop (Throw message params)).

Definition return_ {A : Type} (v : Returned) : Try A :=
  fun st => (st, Stop (Return v)).

(** [return o] for a new object [o] *)
Definition return_new {A : Type} (o : JSObj) : Try A :=
  fun st =>
    (set_heap (heap st ++ [o]) st,
     Stop (Return (RetContainer (List.length (heap st))))).

Definition get : Try State := fun st => (st, Next st).

Definition modify (f : State -> State) : Try unit :=
  fun st => (f st, Next tt).

Definition when (b : bool) (c : Try unit) : Try unit :=
  if b then c else ret tt.

Notation "'do' x <- c ; k" := (bind c (fun x => k))
  (at level 10, x name, c at level 100, k at level 200, only parsing).
Notation "c ;; k" := (bind c (fun _ => k))
  (at level 100, k at level 200, right associativity, only parsing).

(** *** Small helpers *)

Definition flag (b : option bool) : bool := default false b.

Definition Qltb (a b : Q) : bool := negb (Qle_bool b a).

(** A number that is not 0 (or NaN) is truthy. *)
Definition Qtruthy (q : Q) : bool := negb (Qeq_bool q 0).

Definition nl : string := str1 (ascii_of_nat 10).

(** [s.startsWith(t)] *)
Fixpoint startsWith (s t : string) {struct t} : bool :=
  match t with
  | EmptyString => true
  | String b t' =>
      match s with
      | EmptyString => false
      | String a s' => Ascii.eqb a b && startsWith s' t'
      end
  end.

(** [s.endsWith(t)] *)
Definition endsWith (s t : string) : bool :=
  String.eqb (substring (String.length s - String.length t)
                        (String.length t) s) t
  && (String.length t <=? String.length s)%nat.

(** [path.slice(1)] *)
Definition slice1 (s : string) : string :=
  match s with
  | EmptyString => ""
  | String _ s' => s'
  end.

(** [{}] or any new object: the next free place of the heap. *)
Definition alloc (o : JSObj) (st : State) : loc * State :=
  (List.length (heap st), set_heap (heap st ++ [o]) st).

(** The container at [l], and an assignment to it. *)
Definition container (st : State) (l : loc) : JSObj :=
  default [] (heap st !! l).

Definition update_container (l : loc) (f : JSObj -> JSObj) : Try unit :=
  modify (fun st => set_heap (alter f l (heap st)) st).

(** [grab.log.unshift(e)] *)
Definition unshift (e : GrabLogEntry) : Try unit :=
  modify (fun st => set_log (e :: log st) st).

(** [grab.log.find(p)], as the place of the entry found: the code keeps
    a reference to the entry and later writes to it. *)
Fixpoint findIndex (p : GrabLogEntry -> bool) (l : list GrabLogEntry)
  : option nat :=
  match l with
  | [] => None
  | e :: l' => if p e then Some O else S <$> findIndex p l'
  end.

Definition entry_at (st : State) (i : option nat) : option GrabLogEntry :=
  match i with
  | Some i => log st !! i
  | None => None
  end.

(** [priorRequest?.field] *)
Definition prior_field {A : Type} (st : State) (i : option nat)
  (field : GrabLogEntry -> option A) : option A :=
  match entry_at st i with
  | Some e => field e
  | None => None
  end.

Definition update_entry (i : nat) (f : GrabLogEntry -> GrabLogEntry)
  : Try unit :=
  modify (fun st => set_log (alter f i (log st)) st).

Definition set_currentPage (v : JSValue) (e : GrabLogEntry) : GrabLogEntry :=
  {| e_path := e_path e; e_request := e_request e;
     e_response := e_response e; e_error := e_error e;
     e_lastFetchTime := e_lastFetchTime e; e_controller := e_controller e;
     e_currentPage := Some v |}.

Definition delete_controller (e : GrabLogEntry) : GrabLogEntry :=
  {| e_path := e_path e; e_request := e_request e;
     e_response := e_response e; e_error := e_error e;
     e_lastFetchTime := e_lastFetchTime e; e_controller := None;
     e_currentPage := e_currentPage e |}.

(** [priorRequest.res]: no entry has a property [res] (see
    [GrabLogEntry]), so the read gives [undefined]. *)
Definition e_res (e : GrabLogEntry) : option loc := None.

(** *** The destructured options and their defaults *)

Section Destructured.
Variable env : Env.
Variable options : option GrabOptions.
(** [m] is [{...grab.defaults, ...options}] *)
Variable m : GrabOptions.

Definition method : string :=
  default (if flag (o_post (spreadable options)) then "POST"
           else if flag (o_put (spreadable options)) then "PUT"
           else if flag (o_patch (spreadable options)) then "PATCH"
           else "GET") (o_method m).
Definition cache : bool := default false (o_cache m).
Definition cacheForTime : Q := default 60%Q (o_cacheForTime m).
Definition timeout : Q := default 30%Q (o_timeout m).
Definition baseURL : string :=
  default (match SERVER_API_URL env with
           | Some s => if String.eqb s "" then "/api/" else s
           | None => "/api/"
           end) (o_baseURL m).
Definition cancelOngoingIfNew : bool :=
  default false (o_cancelOngoingIfNew m).
Definition cancelNewIfOngoing : bool :=
  default false (o_cancelNewIfOngoing m).
Definition rateLimit : Q := default 0%Q (o_rateLimit m).
Definition repeatEvery : Q := default 0%Q (o_repeatEvery m).
Definition repeat : Z := default 0 (o_repeat m).
Definition debounce : Q := default 0%Q (o_debounce m).
Definition regrabOnStale : bool := default false (o_regrabOnStale m).
Definition regrabOnFocus : bool := default false (o_regrabOnFocus m).
Definition regrabOnNetwork : bool := default false (o_regrabOnNetwork m).
(** [var [paginateKey, paginateResult, paginateElement] =
     infiniteScroll || []] *)
Definition paginateKey_ : option string :=
  paginateKey <$> o_infiniteScroll m.
Definition paginateResult_ : option string :=
  paginateResult <$> o_infiniteScroll m.
Definition paginateElement_ : option string :=
  match o_infiniteScroll m with
  | Some scroll => paginateElement scroll
  | None => None
  end.
(** [!paginateKey] fails: the call is paginated. *)
Definition paginated : option string :=
  match paginateKey_ with
  | Some k => if String.eqb k "" then None else Some k
  | None => None
  end.
End Destructured.

(** Joining [baseURL] and [path]: the new [path] and [baseURL]. *)
Definition joinURL (path baseURL : string) : string * string :=
  let s := fun t => startsWith path t in
  if s "http:" || s "https:" then (path, "")
  else if negb (s "/") && negb (endsWith baseURL "/")
       then ("/" +:+ path, baseURL)
  else if s "/" && endsWith baseURL "/" then (slice1 path, baseURL)
  else (path, baseURL).

(** [JSON.stringify(paginateKey ? {...params, [paginateKey]: undefined}
     : params)] *)
Definition paramsAsText (paginateKey : option string) (params : JSObj)
  : string :=
  JSON_stringify_obj
    (match paginateKey with
     | Some k => obj_set k VUndefined params
     | None => params
     end).

(** [(e) => e.request == paramsAsText && e.path == path] *)
Definition same_call (text path : string) (e : GrabLogEntry) : bool :=
  String.eqb (e_request e) text && String.eqb (e_path e) path.

(** [t > Date.now() - 1000 * seconds], false when [t] is [undefined] *)
Definition within (t : option Z) (now : Z) (seconds : Q) : bool :=
  match t with
  | Some t => Qltb (inject_Z now - 1000 * seconds) (inject_Z t)
  | None => false
  end.

Definition rate_limit_message (path : string) (rateLimit : Q) : string :=
  "Fetch rate limit exceeded for " +:+ path +:+ ". " +:+ nl
    +:+ "        Wait " +:+ show_Q rateLimit +:+ "s between requests.".

Definition keys_of_undefined : string :=
  "Cannot convert undefined or null to object".

Definition read_of_undefined (property : string) : string :=
  "Cannot read properties of undefined (reading '" +:+ property +:+ "')".

(** The message of the [TypeError] of [[...response[key], ...res[key]]]
    where the first or else the second is not iterable. *)
Definition not_iterable (old : bool) : string :=
  (if old then "response[key]" else "res[key]") +:+ " is not iterable".

(** *** application/x-www-form-urlencoded, for [URLSearchParams] *)

Definition HEX_digit (n : N) : ascii :=
  match n with
  | 10%N => "A" | 11%N => "B" | 12%N => "C" | 13%N => "D" | 14%N => "E"
  | 15%N => "F" | _ => hex_digit n
  end%char.

Definition form_encode_char (c : ascii) : string :=
  let n := N_of_ascii c in
  if ((48 <=? n) && (n <=? 57) || (65 <=? n) && (n <=? 90)
      || (97 <=? n) && (n <=? 122)
      || (n =? 42) || (n =? 45) || (n =? 46) || (n =? 95))%N
  then str1 c
  else if (n =? 32)%N then "+"
  else "%" +:+ str1 (HEX_digit (n / 16)) +:+ str1 (HEX_digit (n mod 16)).

Fixpoint form_encode (s : string) : string :=
  match s with
  | EmptyString => ""
  | String c s' => form_encode_char c +:+ form_encode s'
  end.

(** [new URLSearchParams(params).toString()] *)
Definition URLSearchParams_toString (params : JSObj) : string :=
  join "&" (map (fun kv => form_encode (fst kv) +:+ "="
                           +:+ form_encode (js_toString (snd kv))) params).

(** *** The reply of the network *)

(** [fetch] under its signal: a reply that would come after the timeout
    signal aborts is cut there, and [fetch] rejects with the platform's
    error for it. The controller of the request itself is new, and no
    other call runs while this one waits, so a controller's signal does
    not fire. *)
Definition cut_by_signal (env : Env) (sent : FetchRequest)
  (reply : FetchReply) : FetchReply :=
  match f_signal sent with
  | Some (SignalTimeout ms) =>
      if ms <? elapsed reply
      then {| elapsed := ms;
              result := FetchRejects (TimeoutError_message env) |}
      else reply
  | _ => reply
  end.

(** The reply to the [n]-th request as [grab] gets it. *)
Definition reply_to (env : Env) (n : nat) (sent : FetchRequest)
  : FetchReply :=
  cut_by_signal env sent (transport env n sent).


(** *** The body of the [try] block after the scheduling branches *)

Section Attempt.
Variable env : Env.
Variable path : string.
Variable base : string.
Variable options : option GrabOptions.
Variable m : GrabOptions.
Variable response : loc.

(** [const regrab = async () => await grab(path, {...options, cache:
    false})] *)
Definition regrab : Deferred :=
  {| d_path := path; d_options := with_cache false (spreadable options) |}.

(** regrab on stale, on window refocus, on network: with a [window]
    only. *)
Definition register_regrab : Try unit :=
  when (has_window env)
    (when (regrabOnStale m && cache m)
       (modify (fun st =>
          set_timers
            (timers st ++ [SetTimeout (1000 * cacheForTime m) regrab]) st)) ;;
     when (regrabOnNetwork m)
       (modify (fun st =>
          set_listeners
            (listeners st ++ [{| l_event := "online"; l_task := regrab |}])
            st)) ;;
     when (regrabOnFocus m)
       (modify (fun st =>
          set_listeners
            (listeners st
               ++ [{| l_event := "focus"; l_task := regrab |};
                   {| l_event := "visibilitychange"; l_task := regrab |}])
            st))).

(** The scroll listener of infinite scroll, with a [window] only: the
    old [window.scrollListener] goes, the new one loads the next page
    ([grab(path, {...options, cache: false, [paginateKey]: ...})]) when
    the element is scrolled near its end. The element itself and the
    saved scroll position belong to the page, not to this model. *)
Definition register_scroll : Try unit :=
  when (has_window env && bool_decide (is_Some (paginateElement_ m)))
    (modify (fun st =>
       set_listeners
         (filter (fun l => l_event l ≠ "scroll") (listeners st)
            ++ [{| l_event := "scroll"; l_task := regrab |}]) st)).

(** The branch [if (!paginateKey)]: clear the container; then, with
    caching on and a fresh enough prior request, copy
    [priorRequest.res] into it. *)
Definition unpaginated (prior : option nat) (params : JSObj) : Try JSObj :=
  update_container response obj_clear ;;
  do st <- get ;
  if cache m
     && (negb (Qtruthy (cacheForTime m))
         || within (prior_field st prior e_lastFetchTime) (now st)
              (cacheForTime m))
  then
    match entry_at st prior with
    | None => throw (read_of_undefined "res") params
    | Some e =>
        match e_res e with
        | None => throw keys_of_undefined params
        | Some cached =>
            update_container response
              (fun r => obj_spread r (container st cached)) ;;
            ret params
        end
    end
  else ret params.

(** The branch of a paginated request. *)
Definition next_page (paginateKey : string) (prior : option nat)
  (params : JSObj) : Try JSObj :=
  do st <- get ;
  let pageNumber :=
    js_or (match prior_field st prior e_currentPage with
           | Some page => js_add1 page
           | None => None
           end)
      (js_or (Some (obj_get paginateKey params)) (VNum 1)) in
  match prior with
  | None =>
      update_container response
        (obj_assign (default "undefined" (paginateResult_ m)) (VArr [])) ;;
      ret (obj_set paginateKey (VNum 1) params)
  | Some i =>
      update_entry i (set_currentPage pageNumber) ;;
      ret (obj_set paginateKey pageNumber params)
  end.

(** Rate limiting between requests. *)
Definition enforce_rateLimit (prior : option nat) (params : JSObj)
  : Try unit :=
  do st <- get ;
  let lastFetchTime := prior_field st prior e_lastFetchTime in
  if Qltb 0 (rateLimit m)
     && match lastFetchTime with
        | Some t => negb (t =? 0)
        | None => false
        end
     && within lastFetchTime (now st) (rateLimit m)
  then throw (rate_limit_message path (rateLimit m)) params
  else ret tt.

(** Cancellation of a request in progress, or of the new one. *)
Definition cancel_duplicates (prior : option nat) : Try unit :=
  do st <- get ;
  match prior_field st prior e_controller with
  | Some id =>
      if cancelOngoingIfNew m
      then modify (fun st => set_aborted (aborted st ++ [id]) st)
      else if cancelNewIfOngoing m
      then return_new [("isLoading", VBool true)]
      else ret tt
  | None => ret tt
  end.

(** The entry of a request that starts now, with a controller of its
    own. *)
Definition started (text : string) (st : State) : GrabLogEntry :=
  {| e_path := path; e_request := text; e_response := None;
     e_error := None; e_lastFetchTime := Some (now st);
     e_controller := Some (controllers st); e_currentPage := None |}.

Definition track (text : string) : Try unit :=
  do st <- get ;
  unshift (started text st) ;;
  modify (fun st => set_controllers (S (controllers st)) st).

(** Lines 221 to 296: from the look into the history to the entry of
    the new request. Gives the request as text, the parameters to send
    and the place of the prior request in the log. *)
Definition before_request : Try (string * JSObj * option nat) :=
  let params := o_params m in
  let text := paramsAsText (paginated m) params in
  do st <- get ;
  let priorRequest := findIndex (same_call text path) (log st) in
  do params <-
    match paginated m with
    | None => unpaginated priorRequest params
    | Some key => next_page key priorRequest params
    end ;
  update_container response (obj_set "isLoading" (VBool true)) ;;
  enforce_rateLimit priorRequest params ;;
  cancel_duplicates priorRequest ;;
  track text ;;
  (* the entry found is now one place further down the log *)
  ret (text, params, S <$> priorRequest).

(** [fetchParams], with the body a POST, PUT or PATCH carries, and the
    URL with the query a GET carries. *)
Definition in_body : bool :=
  let method := method options m in
  String.eqb method "POST" || String.eqb method "PUT"
  || String.eqb method "PATCH".

Definition fetchParams (st : State) (params : JSObj) : FetchRequest :=
  let paramsGETRequest :=
    if in_body then ""
    else (if bool_decide (obj_keys params = []) then "" else "?")
           +:+ URLSearchParams_toString params in
  {| f_url := base +:+ path +:+ paramsGETRequest;
     f_method := method options m;
     f_headers :=
       obj_spread [("Content-Type", VStr "application/json");
                   ("Accept", VStr "application/json")]
         (default [] (o_headers m));
     f_body :=
       if in_body
       then js_or (Some (obj_get "body" params))
              (VStr (JSON_stringify_obj params))
       else obj_get "body" params;
     f_redirect := "follow";
     f_cache := if cache m then "force-cache" else "no-store";
     f_signal :=
       if cancelOngoingIfNew m
       then match head (log st) with
            | Some e => SignalOfController <$> e_controller e
            | None => None
            end
       else match AbortSignal_timeout env (timeout m * 1000) with
            | inr ms => Some (SignalTimeout ms)
            | inl _ => None
            end |}.

(** The [signal] of [fetchParams] is made as the object is built, before
    the mock handler is looked up: where [AbortSignal.timeout] throws,
    the [try] block ends there. *)
Definition make_signal (params : JSObj) : Try unit :=
  if cancelOngoingIfNew m then ret tt
  else match AbortSignal_timeout env (timeout m * 1000) with
       | inr _ => ret tt
       | inl message => throw message params
       end.

(** What a member of [Object.prototype] is when taken for a mock
    handler: truthy, with no [params], [method], [delay] or
    [response]. *)
Definition inherited_handler : GrabMockHandler :=
  {| m_response := fun _ => VUndefined; m_method := None;
     m_params := None; m_delay := None |}.

(** [grab.mock?.[path]]: the handler registered under [path], or what
    the plain object [grab.mock] inherits under that name. *)
Definition mock_lookup (st : State) : option GrabMockHandler :=
  match mock st !! path with
  | Some h => Some h
  | None => if inherited path then Some inherited_handler else None
  end.

(** The mock handler of the path, when it answers this request. *)
Definition mock_for (st : State) (text : string)
  : option GrabMockHandler :=
  match mock_lookup st with
  | Some h =>
      if (negb (bool_decide (is_Some (m_params h)))
          || bool_decide (m_method h = Some (method options m)))
         && (negb (bool_decide (is_Some (m_params h)))
             || bool_decide
                  (Some text = JSON_stringify_obj <$> m_params h))
      then Some h else None
  | None => None
  end.

Definition advance (ms : Z) : Try unit :=
  modify (fun st => set_now (now st + Z.max 0 ms) st).

(** Lines 336 to 383: the mock handler's response, or the request over
    the network and its decoded body. *)
Definition request (text : string) (params : JSObj) : Try JSValue :=
  make_signal params ;;
  do st <- get ;
  match mock_for st text with
  | Some h =>
      advance (setTimeout_delay env (default 0%Q (m_delay h) * 1000)) ;;
      ret (m_response h params)
  | None =>
      let sent := fetchParams st params in
      let reply := reply_to env (List.length (fetched st)) sent in
      modify (fun st => set_fetched (fetched st ++ [sent]) st) ;;
      advance (elapsed reply) ;;
      match result reply with
      | FetchRejects message => throw message params
      | FetchNotOk status statusText =>
          throw ("HTTP error: " +:+ show_Z status +:+ " " +:+ statusText)
            params
      | FetchBodyFails e => throw ("Error parsing response: " +:+ e) params
      | FetchBody res => ret res
      end
  end.

(** [response[key] = paginateResult == key && response[key]?.length
     ? [...response[key], ...res[key]] : res[key]] for one key of
    [res]; [None] where a spread throws. *)
Definition merge_key (key : string) (value : JSValue) (r : JSObj)
  : option JSObj :=
  if bool_decide (paginateResult_ m = Some key)
     && truthy (js_length (obj_get key r))
  then
    match js_iter (obj_get key r), js_iter value with
    | Some old, Some new => Some (obj_assign key (VArr (old ++ new)) r)
    | _, _ => None
    end
  else Some (obj_assign key value r).

Fixpoint merge_keys (entries : JSObj) (r : JSObj) : option JSObj :=
  match entries with
  | [] => Some r
  | (key, value) :: entries' =>
      match merge_key key value r with
      | Some r' => merge_keys entries' r'
      | None => None
      end
  end.

(** What the container holds up to the key at which a spread throws. *)
Fixpoint merged_so_far (entries : JSObj) (r : JSObj) : JSObj :=
  match entries with
  | [] => r
  | (key, value) :: entries' =>
      match merge_key key value r with
      | Some r' => merged_so_far entries' r'
      | None => r
      end
  end.

(** Whether, at the key at which a spread throws, it is what the
    container holds that is not iterable. *)
Fixpoint old_not_iterable (entries : JSObj) (r : JSObj) : bool :=
  match entries with
  | [] => false
  | (key, value) :: entries' =>
      match merge_key key value r with
      | Some r' => old_not_iterable entries' r'
      | None => negb (bool_decide (is_Some (js_iter (obj_get key r))))
      end
  end.

(** Lines 425 to 436: the container takes the result, field by field
    for a result that is an object, and as [data]. *)
Definition store (res : JSValue) (params : JSObj) : Try unit :=
  if typeof_object res
  then
    match own_entries res with
    | Some entries =>
        do st <- get ;
        match merge_keys entries (container st response) with
        | Some r =>
            update_container response (fun _ => obj_set "data" res r)
        | None =>
            update_container response (merged_so_far entries) ;;
            throw (not_iterable
                     (old_not_iterable entries (container st response)))
              params
        end
    | None => throw keys_of_undefined params
    end
  else update_container response (obj_set "data" res).

(** The entry of a request that has succeeded. *)
Definition succeeded (params : JSObj) (st : State) : GrabLogEntry :=
  {| e_path := path;
     e_request :=
       JSON_stringify_obj (obj_set "paginateKey" VUndefined params);
     e_response := Some response; e_error := None;
     e_lastFetchTime := Some (now st); e_controller := None;
     e_currentPage := None |}.

(** Lines 395 to 449: after the response. *)
Definition after_response (params : JSObj) (priorRequest : option nat)
  (res : JSValue) : Try Returned :=
  update_container response (obj_delete "isLoading") ;;
  match priorRequest with
  | Some i => update_entry i delete_controller
  | None => ret tt
  end ;;
  store res params ;;
  do st <- get ;
  unshift (succeeded params st) ;;
  return_ (RetContainer response).

(** Lines 163 to 449 of the source. *)
Definition attempt : Try Returned :=
  register_regrab ;;
  register_scroll ;;
  do found <- before_request ;
  let '(text, params, priorRequest) := found in
  do res <- request text params ;
  after_response params priorRequest res.
End Attempt.

(** *** The whole function *)

Definition run (c : Try Returned) (st : State) : State * Completion :=
  match c st with
  | (st', Next v) => (st', Return v)
  | (st', Stop e) => (st', e)
  end.

(** The variables of a call once the options are destructured and the
    URL is joined (lines 72 to 124). *)
Record Frame : Type := {
  fr_m : GrabOptions;
  fr_response : loc;
  fr_path : string;
  fr_base : string
}.

(** [{...grab.defaults, ...options}] *)
Definition merged (st : State) (options : option GrabOptions) : GrabOptions :=
  spread_options (defaults st) (spreadable options).

Definition enter (env : Env) (st : State) (path : string)
  (options : option GrabOptions) : Frame * State :=
  let m := merged st options in
  let '(response, st) :=
    match o_response m with
    | Some l => (l, st)
    | None => alloc [] st
    end in
  let '(path, base) := joinURL path (baseURL env m) in
  ({| fr_m := m; fr_response := response; fr_path := path;
      fr_base := base |}, st).

(** The entry of a request that has failed. *)
Definition failed (path message : string) (params : JSObj) : GrabLogEntry :=
  {| e_path := path; e_request := JSON_stringify_obj params;
     e_response := None; e_error := Some message; e_lastFetchTime := None;
     e_controller := None; e_currentPage := None |}.

Section Body.
Variable env : Env.
(** [grab] itself, for the calls the function makes to itself. *)
Variable self : State -> string -> option GrabOptions -> State * Settled.

(** [for (let i = 0; i < repeat; i++) await grab(path, {...options,
    repeat: 0})]; a call that rejects throws out of the loop. *)
Fixpoint repeat_calls (n : nat) (path : string) (again : GrabOptions)
  (params : JSObj) : Try unit :=
  match n with
  | O => ret tt
  | S n' =>
      fun st =>
        match self st path (Some again) with
        | (st', Resolved _) => repeat_calls n' path again params st'
        | (st', Rejected message) => (st', Stop (Throw message params))
        end
  end.

(** Lines 126 to 449: the [try] block. *)
Definition try_block (options : option GrabOptions) (fr : Frame)
  : Try Returned :=
  let m := fr_m fr in
  let path := fr_path fr in
  let response := fr_response fr in
  if Qltb 0 (debounce m)
  then
    return_
      (RetFunction
         {| d_path := path;
            d_options := with_debounce 0 (spreadable options) |}
         (debounce m * 1000))
  else if 1 <? repeat m
  then
    repeat_calls (Z.to_nat (repeat m)) path
      (with_repeat 0 (spreadable options)) (o_params m) ;;
    return_ (RetContainer response)
  else if Qtruthy (repeatEvery m)
  then
    modify (fun st =>
      set_timers
        (timers st
           ++ [SetInterval (repeatEvery m * 1000)
                 {| d_path := path;
                    d_options :=
                      without_repeatEvery
                        (with_repeat 0 (spreadable options)) |}]) st) ;;
    return_ (RetContainer response)
  else if flag (o_setDefaults (spreadable options))
  then
    modify (set_defaults (without_setDefaults (spreadable options))) ;;
    return_ RetUndefined
  else attempt env path (fr_base fr) options m response.

(** The error is written in the container and in the log (lines 467
    to 489). *)
Definition write_error (path : string) (response : loc) (message : string)
  (params : JSObj) (st : State) : State :=
  let st :=
    set_heap
      (alter (fun r => obj_delete "isLoading"
                         (obj_set "error" (VStr message) r))
         response (heap st)) st in
  set_log (failed path message params :: log st) st.

(** Lines 450 to 490: the [catch] block. With the options, the container
    and the params the model holds (an options object that can be
    written to, a container that is an object, params [JSON.stringify]
    prints), the one step of the block that can throw is the read of
    [options.retryAttempts] where [options] was left out. *)
Definition catch_block (options : option GrabOptions) (fr : Frame)
  (message : string) (params : JSObj) (st : State) : State * Settled :=
  match options with
  | None => (st, Rejected (read_of_undefined "retryAttempts"))
  | Some o =>
      match o_retryAttempts o with
      | Some retryAttempts =>
          if 0 <? retryAttempts
          then self st (fr_path fr)
                 (Some (with_retryAttempts (retryAttempts - 1) o))
          else (write_error (fr_path fr) (fr_response fr) message params st,
                Resolved (RetContainer (fr_response fr)))
      | None =>
          (write_error (fr_path fr) (fr_response fr) message params st,
           Resolved (RetContainer (fr_response fr)))
      end
  end.

(** [grab(path, options)] with [options] left out when [None]. *)
Definition grab_body (st : State) (path : string)
  (options : option GrabOptions) : State * Settled :=
  let '(fr, st) := enter env st path options in
  match run (try_block options fr) st with
  | (st, Return v) => (st, Resolved v)
  | (st, Throw message params) => catch_block options fr message params st
  end.
End Body.

(** The calls [grab] makes to itself are nested at most this deep: once
    for [repeat], once for every retry left. *)
Definition depth (options : option GrabOptions) : nat :=
  let o := spreadable options in
  S (Z.to_nat (default 0 (o_retryAttempts o))
     + match o_repeat o with
       | Some r => if r <=? 1 then 0 else 1
       | None => 1
       end).

Fixpoint grab_within (env : Env) (nesting : nat)
  : State -> string -> option GrabOptions -> State * Settled :=
  match nesting with
  | O => fun st _ _ => (st, Rejected "Maximum call stack size exceeded")
  | S nesting' => grab_body env (grab_within env nesting')
  end.

Definition grab (env : Env) (st : State) (path : string)
  (options : option GrabOptions) : State * Settled :=
  grab_within env (depth options) st path options.

(** Between two calls the clock moves on. *)
Definition later (ms : Z) (st : State) : State := set_now (now st + ms) st.

(** One call after the other, each after a wait, each with the state the
    one before left. *)
Fixpoint grab_each (env : Env) (st : State)
  (calls : list (Z * string * option GrabOptions)) : State * list Settled :=
  match calls with
  | [] => (st, [])
  | (wait, path, options) :: calls' =>
      let '(st1, r) := grab env (later wait st) path options in
      let '(st2, rs) := grab_each env st1 calls' in
      (st2, r :: rs)
  end.

(** *** [grab.instance] *)

(** [grab.instance(defaults)(path, options)]: [defaults] and [options]
    are [{}] when left out. *)
Definition instance (env : Env) (instance_defaults : option GrabOptions)
  (st : State) (path : string) (options : option GrabOptions)
  : State * Settled :=
  grab env st path
    (Some (spread_options (spreadable instance_defaults)
             (spreadable options))).

(** *** [debouncer] *)

Section Debouncer.
Variable env : Env.
(** The arguments of a call of the function [debouncer] hands back. *)
Variable Args : Type.
(** Whether, at a given instant, the timers due at that very instant run
    before the call made at it: the event loop decides. *)
Variable due_first : Z -> bool.

(** What one [debouncer(func, wait)] holds and has done: the variable
    [timeout]; the timers set and neither run nor cleared, each with its
    id, the time it is due and the arguments its [later] holds; the
    number of timers set; the calls of [func] made, oldest first, each
    with its time. *)
Record Debounced : Type := {
  timeout_ : option nat;
  pending : list (nat * (Z * Args));
  timers_set : nat;
  func_calls : list (Z * Args)
}.

(** [let timeout;] *)
Definition debouncer : Debounced :=
  {| timeout_ := None; pending := []; timers_set := 0; func_calls := [] |}.

(** [clearTimeout(timeout)]: nothing for [undefined] or for a timer that
    has run. *)
Definition clearTimeout (id : option nat) (d : Debounced) : Debounced :=
  match id with
  | Some id =>
      {| timeout_ := timeout_ d;
         pending := filter (fun timer => timer.1 ≠ id) (pending d);
         timers_set := timers_set d; func_calls := func_calls d |}
  | None => d
  end.

(** [executedFunction(...args)] called at the time [t]:
    [clearTimeout(timeout); timeout = setTimeout(later, wait)]. *)
Definition executedFunction (wait t : Z) (args : Args) (d : Debounced)
  : Debounced :=
  let d := clearTimeout (timeout_ d) d in
  let id := timers_set d in
  {| timeout_ := Some id;
     pending :=
       pending d
         ++ [(id, (t + setTimeout_delay env (inject_Z wait), args))];
     timers_set := S id; func_calls := func_calls d |}.

(** [later] of a timer run at the time [due]:
    [clearTimeout(timeout); await func(...args)]. *)
Definition later_ (due : Z) (args : Args) (d : Debounced) : Debounced :=
  let d := clearTimeout (timeout_ d) d in
  {| timeout_ := timeout_ d; pending := pending d;
     timers_set := timers_set d;
     func_calls := func_calls d ++ [(due, args)] |}.

(** The timer that is due first, the older one of two due together. *)
Fixpoint earliest (l : list (nat * (Z * Args)))
  : option (nat * (Z * Args)) :=
  match l with
  | [] => None
  | timer :: l' =>
      match earliest l' with
      | Some timer' =>
          if timer.2.1 <=? timer'.2.1 then Some timer else Some timer'
      | None => Some timer
      end
  end.

(** The timers due before the time [t] run, one after the other, and
    with them, when [at_t] is set, those due at [t]. *)
Fixpoint run_timers (fuel : nat) (t : Z) (at_t : bool) (d : Debounced)
  : Debounced :=
  match fuel with
  | O => d
  | S fuel' =>
      match earliest (pending d) with
      | Some (id, (due, args)) =>
          if (due <? t) || at_t && (due =? t)
          then run_timers fuel' t at_t
                 (later_ due args
                    {| timeout_ := timeout_ d;
                       pending :=
                         filter (fun timer => timer.1 ≠ id) (pending d);
                       timers_set := timers_set d;
                       func_calls := func_calls d |})
          else d
      | None => d
      end
  end.

Definition elapse (t : Z) (at_t : bool) (d : Debounced) : Debounced :=
  run_timers (List.length (pending d)) t at_t d.

(** The calls [(t, args)] of the debounced function in the order they
    are made, each after the timers that are due before it. *)
Fixpoint debounced_calls (wait : Z) (calls : list (Z * Args))
  (d : Debounced) : Debounced :=
  match calls with
  | [] => d
  | (t, args) :: calls' =>
      debounced_calls wait calls'
        (executedFunction wait t args (elapse t (due_first t) d))
  end.

(** A new debounced function, its calls, and then the time up to and
    with [horizon]. *)
Definition debounce_run (wait : Z) (calls : list (Z * Args)) (horizon : Z)
  : Debounced :=
  elapse horizon true (debounced_calls wait calls debouncer).

(** The calls no other call follows within [wait] ms, each at the time
    its timer runs. *)
Fixpoint trailing (wait : Z) (calls : list (Z * Args)) : list (Z * Args) :=
  match calls with
  | [] => []
  | (t, args) :: calls' =>
      match calls' with
      | [] => [(t + wait, args)]
      | (t', _) :: _ =>
          if t + wait <? t'
          then (t + wait, args) :: trailing wait calls'
          else trailing wait calls'
      end
  end.

(** The calls are made in the order of their times, and none at the
    very instant the timer of the call before it is due. *)
Fixpoint in_order (wait : Z) (calls : list (Z * Args)) : Prop :=
  match calls with
  | [] => True
  | (t, _) :: calls' =>
      match calls' with
      | [] => True
      | (t', _) :: _ => t <= t' /\ t' <> t + wait /\ in_order wait calls'
      end
  end.

(** Every call but the first is made less than [wait] ms after the one
    before. *)
Fixpoint burst (wait : Z) (calls : list (Z * Args)) : Prop :=
  match calls with
  | [] => True
  | (t, _) :: calls' =>
      match calls' with
      | [] => True
      | (t', _) :: _ => t <= t' < t + wait /\ burst wait calls'
      end
  end.
End Debouncer.

Arguments timeout_ {Args} _.
Arguments pending {Args} _.
Arguments timers_set {Args} _.
Arguments func_calls {Args} _.
Arguments debouncer {Args}.
Arguments clearTimeout {Args} _ _.
Arguments executedFunction _ {Args} _ _ _ _.
Arguments later_ {Args} _ _ _.
Arguments earliest {Args} _.
Arguments run_timers {Args} _ _ _ _.
Arguments elapse {Args} _ _ _.
Arguments debounced_calls _ {Args} _ _ _ _.
Arguments debounce_run _ {Args} _ _ _ _.
Arguments trailing {Args} _ _.
Arguments in_order {Args} _ _.
Arguments burst {Args} _ _.

(** ** Notions the statements use *)

(** None of the scheduling branches of the [try] block is taken: no
    debounce, no repeat, no interval. *)
Definition unscheduled (m : GrabOptions) : Prop :=
  (debounce m <= 0)%Q /\ repeat m <= 1 /\ (repeatEvery m == 0)%Q.


(** The most recent entry of the call in the history carries a time
    stamp that lies within the last [seconds]. *)
Definition recent_call (st : State) (text path : string) (seconds : Q)
  : Prop :=
  exists i e t,
    findIndex (same_call text path) (log st) = Some i
    /\ log st !! i = Some e
    /\ e_lastFetchTime e = Some t
    /\ t <> 0
    /\ (inject_Z (now st) - 1000 * seconds < inject_Z t)%Q.

(** The parameters a CallKey is made of: all but the pagination
    cursor, in their order. *)
Definition without_cursor (paginateKey : option string) (params : JSObj)
  : JSObj :=
  match paginateKey with
  | Some key => obj_delete key params
  | None => params
  end.

(** [wp c Q E st]: run from [st], the computation [c] ends in a state
    and with a value that satisfy [Q], or stops in a state and with a
    completion that satisfy [E]. *)
Definition wp {A : Type} (c : Try A) (Q : State -> A -> Prop)
  (E : State -> Completion -> Prop) (st : State) : Prop :=
  match c st with
  | (st', Next a) => Q st' a
  | (st', Stop e) => E st' e
  end.

(** The milliseconds of the signal [AbortSignal.timeout(timeout *
    1000)] makes, where it makes one. *)
Definition timeout_ms (env : Env) (m : GrabOptions) : option Z :=
  match AbortSignal_timeout env (timeout m * 1000) with
  | inr ms => Some ms
  | inl _ => None
  end.

(** Building [fetchParams] does not throw: the signal is that of the
    call's controller, or [AbortSignal.timeout] takes the timeout. *)
Definition signal_made (env : Env) (m : GrabOptions) : Prop :=
  cancelOngoingIfNew m = true \/ is_Some (timeout_ms env m).


(** No mock handler is found for the path: none is registered under it
    and it is not a name [grab.mock] inherits a property under. *)
Definition unmocked (st : State) (path : string) : Prop :=
  mock_lookup path st = None.


(** The field that accumulates, if there is one, is not a name objects
    inherit a property under. *)
Definition own_field (m : GrabOptions) : Prop :=
  forall field, paginateResult_ m = Some field -> inherited field = false.



(** The calls the history tells of, newest first: the path and the
    request of every entry. *)
Definition calls_of (l : list GrabLogEntry) : list (string * string) :=
  map (fun e => (e_path e, e_request e)) l.

(** What a call leaves as it was, from [st] to [st']: [grab.mock]; the
    calls the history tells of, to which it only adds at the head; the
    listeners, where there is no [window]; [grab.defaults], where
    [setDefaults] is not asked for. *)
Definition footprint (window setDefaults : bool) (st st' : State) : Prop :=
  mock st' = mock st
  /\ calls_of (log st) `suffix_of` calls_of (log st')
  /\ (window = false -> listeners st' = listeners st)
  /\ (setDefaults = false -> defaults st' = defaults st).



(** A call in a browser that asks for a regrab when the network is back
    and for no other listener: under the defaults [d], the options [o]
    set [regrabOnNetwork], leave [regrabOnFocus] and the element of
    infinite scroll out, schedule nothing and ask for no retry. *)
Definition watches_network (d o : GrabOptions) : Prop :=
  let m := spread_options d o in
  unscheduled m
  /\ flag (o_setDefaults o) = false
  /\ (forall k, o_retryAttempts o = Some k -> k <= 0)
  /\ regrabOnNetwork m = true
  /\ regrabOnFocus m = false
  /\ paginateElement_ m = None.

(** The listener [window.addEventListener("online", regrab)] of the call
    with the options [o] to [path]. *)
Definition online_regrab (env : Env) (d : GrabOptions) (path : string)
  (o : GrabOptions) : Listener :=
  {| l_event := "online";
     l_task := {| d_path := (joinURL path (baseURL env (spread_options d o))).1;
                  d_options := with_cache false o |} |}.

(** The call asks for no retry. *)
Definition no_retry (o : GrabOptions) : Prop :=
  forall k, o_retryAttempts o = Some k -> k <= 0.

(** The call [grab(path, o)] made in the state [st] ends in failure: its
    [try] block throws, and so does that of every retry the [catch]
    block makes of it, down to the one that has no retry left, whose
    [try] block, with the variables [fr], throws [message] in the state
    [st1] with the params [params]. *)
Inductive ends_in_failure (env : Env)
  : State -> string -> GrabOptions -> Frame -> State -> string -> JSObj
    -> Prop :=
| fails_at_last st path o st1 message params :
    no_retry o ->
    run (try_block env (grab env) (Some o)
           (fst (enter env st path (Some o))))
      (snd (enter env st path (Some o)))
    = (st1, Throw message params) ->
    ends_in_failure env st path o (fst (enter env st path (Some o)))
      st1 message params
| fails_and_retries st path o k st' message' params' fr st1 message params :
    o_retryAttempts o = Some k ->
    0 < k ->
    run (try_block env (grab env) (Some o)
           (fst (enter env st path (Some o))))
      (snd (enter env st path (Some o)))
    = (st', Throw message' params') ->
    ends_in_failure env st' (fr_path (fst (enter env st path (Some o))))
      (with_retryAttempts (k - 1) o) fr st1 message params ->
    ends_in_failure env st path o fr st1 message params.






(** ** Examples *)

Module Example.

(** The platforms of the examples but [browser] are like Node:
    [AbortSignal.timeout] refuses every delay that is not a whole number
    from 0 to 4294967295, with a message that tells of the range, a
    [fetch] that times out says that the operation was aborted, and
    [setTimeout] waits 1 ms for a delay that is not from 1 to
    2147483647. *)
Definition Node_RangeError (ms : Q) : string :=
  "The value of " +:+ json_quote "delay" +:+ " is out of range.".

Definition options_with (response : option loc) (params : JSObj)
  : GrabOptions :=
  {| o_headers := None; o_response := response; o_method := None;
     o_cache := None; o_cacheForTime := None; o_timeout := None;
     o_baseURL := None; o_cancelOngoingIfNew := None;
     o_cancelNewIfOngoing := None; o_rateLimit := None; o_debug := None;
     o_infiniteScroll := None; o_setDefaults := None;
     o_retryAttempts := None; o_repeatEvery := None; o_repeat := None;
     o_debounce := None; o_regrabOnStale := None; o_regrabOnFocus := None;
     o_regrabOnNetwork := None; o_post := None; o_put := None;
     o_patch := None; o_body := None; o_params := params |}.

(** A network that answers every request with [{id: 1, name: "a"}]
    after 10 ms. *)
Definition thing : JSValue := VObj [("id", VNum 1); ("name", VStr "a")].

Definition answering : Env :=
  {| transport := fun _ _ => {| elapsed := 10; result := FetchBody thing |};
     has_window := false; SERVER_API_URL := None;
     other_timeout := fun _ => None;
     RangeError_message := Node_RangeError;
     TimeoutError_message := "The operation was aborted due to timeout";
     other_delay := fun _ => 1 |}.

(** A network that answers every request with status 500 after 10 ms. *)
Definition failing : Env :=
  {| transport := fun _ _ =>
       {| elapsed := 10;
          result := FetchNotOk 500 "Internal Server Error" |};
     has_window := false; SERVER_API_URL := None;
     other_timeout := fun _ => None;
     RangeError_message := Node_RangeError;
     TimeoutError_message := "The operation was aborted due to timeout";
     other_delay := fun _ => 1 |}.




(** The module just loaded, with two empty containers, at some time of
    the clock. *)
Definition fresh : State := initial [[]; []] 1700000000000.

(** [{method: "GET", cache: true, cacheForTime: 60, response}] *)
Definition cached (response : loc) : GrabOptions :=
  {| o_headers := None; o_response := Some response;
     o_method := Some "GET"; o_cache := Some true;
     o_cacheForTime := Some 60%Q; o_timeout := None;
     o_baseURL := None; o_cancelOngoingIfNew := None;
     o_cancelNewIfOngoing := None; o_rateLimit := None; o_debug := None;
     o_infiniteScroll := None; o_setDefaults := None;
     o_retryAttempts := None; o_repeatEvery := None; o_repeat := None;
     o_debounce := None; o_regrabOnStale := None; o_regrabOnFocus := None;
     o_regrabOnNetwork := None; o_post := None; o_put := None;
     o_patch := None; o_body := None; o_params := [] |}.

(** [{debounce: 0.05, response, q}] *)
Definition debounced (q : string) : GrabOptions :=
  with_debounce (1 # 20) (options_with (Some 0%nat) [("q", VStr q)]).

(** [{rateLimit: 5, response}] *)
Definition limited : GrabOptions :=
  {| o_headers := None; o_response := Some 0%nat; o_method := None;
     o_cache := None; o_cacheForTime := None; o_timeout := None;
     o_baseURL := None; o_cancelOngoingIfNew := None;
     o_cancelNewIfOngoing := None; o_rateLimit := Some 5%Q;
     o_debug := None; o_infiniteScroll := None; o_setDefaults := None;
     o_retryAttempts := None; o_repeatEvery := None; o_repeat := None;
     o_debounce := None; o_regrabOnStale := None; o_regrabOnFocus := None;
     o_regrabOnNetwork := None; o_post := None; o_put := None;
     o_patch := None; o_body := None; o_params := [] |}.


(** One second after the same call failed. *)
Definition unanswered : State :=
  later 1000
    (fst (grab failing fresh "/things" (Some limited))).

(** [{cancelNewIfOngoing: true, response}] *)
Definition newest_yields : GrabOptions :=
  {| o_headers := None; o_response := Some 0%nat; o_method := None;
     o_cache := None; o_cacheForTime := None; o_timeout := None;
     o_baseURL := None; o_cancelOngoingIfNew := None;
     o_cancelNewIfOngoing := Some true; o_rateLimit := None;
     o_debug := None; o_infiniteScroll := None; o_setDefaults := None;
     o_retryAttempts := None; o_repeatEvery := None; o_repeat := None;
     o_debounce := None; o_regrabOnStale := None; o_regrabOnFocus := None;
     o_regrabOnNetwork := None; o_post := None; o_put := None;
     o_patch := None; o_body := None; o_params := [] |}.

(** The state while an earlier [grab("/things")] waits for the
    network: its entry is in the log with its controller. *)
Definition in_flight : State :=
  set_controllers 1
    (set_log [started "things" "{}" fresh] fresh).

(** [{cancelOngoingIfNew: true, timeout: 1, response}] *)
Definition oldest_yields : GrabOptions :=
  {| o_headers := None; o_response := Some 0%nat; o_method := None;
     o_cache := None; o_cacheForTime := None; o_timeout := Some 1%Q;
     o_baseURL := None; o_cancelOngoingIfNew := Some true;
     o_cancelNewIfOngoing := None; o_rateLimit := None;
     o_debug := None; o_infiniteScroll := None; o_setDefaults := None;
     o_retryAttempts := None; o_repeatEvery := None; o_repeat := None;
     o_debounce := None; o_regrabOnStale := None; o_regrabOnFocus := None;
     o_regrabOnNetwork := None; o_post := None; o_put := None;
     o_patch := None; o_body := None; o_params := [] |}.




(** [{setDefaults: true, debounce: 1, baseURL: "/v2/"}] *)
Definition new_defaults : GrabOptions :=
  {| o_headers := None; o_response := None; o_method := None;
     o_cache := None; o_cacheForTime := None; o_timeout := None;
     o_baseURL := Some "/v2/"; o_cancelOngoingIfNew := None;
     o_cancelNewIfOngoing := None; o_rateLimit := None;
     o_debug := None; o_infiniteScroll := None;
     o_setDefaults := Some true;
     o_retryAttempts := None; o_repeatEvery := None; o_repeat := None;
     o_debounce := Some 1%Q; o_regrabOnStale := None;
     o_regrabOnFocus := None;
     o_regrabOnNetwork := None; o_post := None; o_put := None;
     o_patch := None; o_body := None; o_params := [] |}.

(** [{repeatEvery: 5, response}] *)
Definition polling : GrabOptions :=
  {| o_headers := None; o_response := Some 0%nat; o_method := None;
     o_cache := None; o_cacheForTime := None; o_timeout := None;
     o_baseURL := None; o_cancelOngoingIfNew := None;
     o_cancelNewIfOngoing := None; o_rateLimit := None;
     o_debug := None; o_infiniteScroll := None; o_setDefaults := None;
     o_retryAttempts := None; o_repeatEvery := Some 5%Q; o_repeat := None;
     o_debounce := None; o_regrabOnStale := None; o_regrabOnFocus := None;
     o_regrabOnNetwork := None; o_post := None; o_put := None;
     o_patch := None; o_body := None; o_params := [] |}.






(** [{retryAttempts: 1, response}] *)
Definition once_more : GrabOptions :=
  with_retryAttempts 1 (options_with (Some 0%nat) []).


(** The answering network, in a browser. *)
Definition browser : Env :=
  {| transport := fun _ _ => {| elapsed := 10; result := FetchBody thing |};
     has_window := true; SERVER_API_URL := None;
     other_timeout :=
       fun ms =>
         if Qle_bool ms 9007199254740991 then Some (Qfloor ms) else None;
     RangeError_message := fun _ => "Value is outside the range";
     TimeoutError_message := "signal timed out";
     other_delay := fun _ => 0 |}.

(** [{regrabOnNetwork: true, response}] *)
Definition watching : GrabOptions :=
  {| o_headers := None; o_response := Some 0%nat; o_method := None;
     o_cache := None; o_cacheForTime := None; o_timeout := None;
     o_baseURL := None; o_cancelOngoingIfNew := None;
     o_cancelNewIfOngoing := None; o_rateLimit := None;
     o_debug := None; o_infiniteScroll := None; o_setDefaults := None;
     o_retryAttempts := None; o_repeatEvery := None; o_repeat := None;
     o_debounce := None; o_regrabOnStale := None; o_regrabOnFocus := None;
     o_regrabOnNetwork := Some true; o_post := None; o_put := None;
     o_patch := None; o_body := None; o_params := [] |}.

End Example.


(** ** Facts *)

Lemma depth_repeat d options :
  1 < repeat (spread_options d (spreadable options)) ->
  (depth (Some (with_repeat 0 (spreadable options))) < depth options)%nat.
Proof.
  unfold depth, repeat. simpl.
  destruct (o_repeat (spreadable options)) as [r|] eqn:E; simpl.
  - intros H. destruct (r <=? 1) eqn:E1; [lia | lia].
  - lia.
Qed.

Lemma depth_retry o n :
  o_retryAttempts o = Some n -> 0 < n ->
  (depth (Some (with_retryAttempts (n - 1) o)) < depth (Some o))%nat.
Proof.
  intros E H. unfold depth. simpl. rewrite E. simpl. lia.
Qed.

Lemma enter_m env st path options :
  fr_m (fst (enter env st path options)) = merged st options.
Proof.
  unfold enter.
  destruct (o_response _); [| destruct (alloc _ _)];
    destruct (joinURL _ _); reflexivity.
Qed.

Lemma repeat_calls_ext self1 self2 n path again params st :
  (forall st' p', self1 st' p' (Some again) = self2 st' p' (Some again)) ->
  repeat_calls self1 n path again params st =
  repeat_calls self2 n path again params st.
Proof.
  intros H. revert st. induction n as [|n IH]; intros st; simpl.
  - reflexivity.
  - rewrite H. destruct (self2 st path (Some again)) as [st' [v|msg]].
    + apply IH.
    + reflexivity.
Qed.

Lemma grab_body_ext env self1 self2 st path options :
  (forall st' p' o', (depth (Some o') < depth options)%nat ->
     self1 st' p' (Some o') = self2 st' p' (Some o')) ->
  grab_body env self1 st path options = grab_body env self2 st path options.
Proof.
  intros H. unfold grab_body.
  pose proof (enter_m env st path options) as Hm.
  destruct (enter env st path options) as [fr st0]. simpl in Hm.
  assert (Hc : forall msg params st1,
             catch_block self1 options fr msg params st1 =
             catch_block self2 options fr msg params st1).
  { intros msg params st1. unfold catch_block.
    destruct options as [o|]; [|reflexivity].
    destruct (o_retryAttempts o) as [n|] eqn:E; [|reflexivity].
    destruct (0 <? n) eqn:E0; [|reflexivity].
    apply H. apply depth_retry; [assumption | lia]. }
  assert (Ht : run (try_block env self1 options fr) st0 =
               run (try_block env self2 options fr) st0).
  { unfold run, try_block.
    destruct (Qltb 0 (debounce (fr_m fr))); [reflexivity|].
    destruct (1 <? repeat (fr_m fr)) eqn:E1; [|reflexivity].
    unfold bind.
    rewrite (repeat_calls_ext self1 self2); [reflexivity|].
    intros st' p'. apply H. rewrite Hm in E1. unfold merged in E1.
    apply (depth_repeat (defaults st)). lia. }
  rewrite Ht.
  destruct (run (try_block env self2 options fr) st0) as [st1 [v|msg params]].
  - reflexivity.
  - apply Hc.
Qed.

Lemma grab_within_enough env n1 :
  forall n2 options st path,
    (depth options <= n1)%nat -> (depth options <= n2)%nat ->
    grab_within env n1 st path options = grab_within env n2 st path options.
Proof.
  induction n1 as [|n1 IH]; intros n2 options st path H1 H2.
  - unfold depth in H1. lia.
  - destruct n2 as [|n2]; [unfold depth in H2; lia|].
    simpl. apply grab_body_ext. intros st' p' o' Hlt.
    apply IH; lia.
Qed.

(** [grab] is the function whose body calls [grab]: the nesting given to
    it is never used up. *)
Lemma grab_unfold env st path options :
  grab env st path options = grab_body env (grab env) st path options.
Proof.
  unfold grab at 1.
  destruct (depth options) as [|d] eqn:E; [unfold depth in E; lia|].
  simpl. apply grab_body_ext. intros st' p' o' Hlt.
  unfold grab. apply grab_within_enough; lia.
Qed.

(** *** Booleans of the code and the relations they decide *)

Lemma Qltb_true a b : Qltb a b = true <-> (a < b)%Q.
Proof.
  unfold Qltb. rewrite negb_true_iff.
  split.
  - intros H. apply Qnot_le_lt. intros Hle.
    apply Qle_bool_iff in Hle. congruence.
  - intros H. destruct (Qle_bool b a) eqn:E; [|reflexivity].
    apply Qle_bool_iff in E. apply Qle_not_lt in E. contradiction.
Qed.

Lemma Qltb_false a b : Qltb a b = false <-> (b <= a)%Q.
Proof.
  unfold Qltb. rewrite negb_false_iff. apply Qle_bool_iff.
Qed.

Lemma Qtruthy_false q : Qtruthy q = false <-> (q == 0)%Q.
Proof.
  unfold Qtruthy. rewrite negb_false_iff. apply Qeq_bool_iff.
Qed.

(** *** The key of a call *)

Lemma stringify_members o :
  JSON_stringify_obj o = "{" +:+ join "," (json_members o) +:+ "}".
Proof.
  reflexivity.
Qed.

Lemma json_members_app o1 o2 :
  json_members (o1 ++ o2) = json_members o1 ++ json_members o2.
Proof.
  induction o1 as [|[k x] o1 IH]; simpl; [reflexivity|].
  destruct (is_undefined x); simpl; [exact IH | f_equal; exact IH].
Qed.

Lemma json_members_insert_index n k o :
  json_members (obj_insert_index n k VUndefined o) = json_members o.
Proof.
  induction o as [|[k' x] o IH]; simpl; [reflexivity|].
  destruct (index_of_key k') as [n'|]; [destruct (n' <? n)%N|]; simpl;
    try reflexivity.
  destruct (is_undefined x); [exact IH | f_equal; exact IH].
Qed.

Lemma obj_delete_absent k o : obj_has k o = false -> obj_delete k o = o.
Proof.
  induction o as [|[k' x] o IH]; simpl; [reflexivity|].
  destruct (String.eqb k' k); simpl; [discriminate|].
  intros H. f_equal. apply IH, H.
Qed.

Lemma json_members_replace k o :
  json_members (obj_replace k VUndefined o) = json_members (obj_delete k o).
Proof.
  induction o as [|[k' x] o IH]; simpl; [reflexivity|].
  destruct (String.eqb k' k); simpl; [reflexivity|].
  destruct (is_undefined x); [exact IH | f_equal; exact IH].
Qed.

(** Setting the cursor to [undefined] takes it out of the text. *)
Lemma json_members_cursor k o :
  json_members (obj_set k VUndefined o) = json_members (obj_delete k o).
Proof.
  unfold obj_set. destruct (obj_has k o) eqn:E.
  - apply json_members_replace.
  - rewrite (obj_delete_absent k o E).
    destruct (index_of_key k) as [n|].
    + apply json_members_insert_index.
    + rewrite json_members_app. simpl. apply app_nil_r.
Qed.

Lemma paramsAsText_without_cursor paginateKey params :
  paramsAsText paginateKey params =
  JSON_stringify_obj (without_cursor paginateKey params).
Proof.
  unfold paramsAsText, without_cursor. destruct paginateKey as [k|].
  - rewrite !stringify_members, json_members_cursor. reflexivity.
  - reflexivity.
Qed.

(** C7 (as amended): two calls with the same path whose parameters,
    the pagination cursor left aside, are the same pairs in the same
    order have the same CallKey text, whatever the cursor holds and
    wherever it stands, and the look into the history finds the same
    entry for both. *)
Theorem callkey_ignores_cursor paginateKey path p q history :
  without_cursor paginateKey p = without_cursor paginateKey q ->
  paramsAsText paginateKey p = paramsAsText paginateKey q
  /\ findIndex (same_call (paramsAsText paginateKey p) path) history
     = findIndex (same_call (paramsAsText paginateKey q) path) history.
Proof.
  intros H.
  assert (E : paramsAsText paginateKey p = paramsAsText paginateKey q).
  { rewrite !paramsAsText_without_cursor. congruence. }
  split; [exact E | rewrite E; reflexivity].
Qed.

(** Two records with the cursor at 1 and at 7 and their keys in another
    order, equal once the cursor is deleted. *)
Lemma callkey_ignores_cursor_witness :
  let p := [("q", VStr "x"); ("page", VNum 1)] in
  let q := [("page", VNum 7); ("q", VStr "x")] in
  without_cursor (Some "page") p = without_cursor (Some "page") q
  /\ paramsAsText (Some "page") p = paramsAsText (Some "page") q.
Proof.
  split; [reflexivity|].
  apply (callkey_ignores_cursor (Some "page") "things"
           [("q", VStr "x"); ("page", VNum 1)]
           [("page", VNum 7); ("q", VStr "x")] []).
  reflexivity.
Defined.

(** C7 (as stated) fails: [{a: 1, b: 2}] and [{b: 2, a: 1}] are the same
    map, their texts differ, and the entry of a call with the first is
    not found by a call with the second. *)
Lemma callkey_depends_on_key_order :
  let p := [("a", VNum 1); ("b", VNum 2)] in
  let q := [("b", VNum 2); ("a", VNum 1)] in
  wf_obj p /\ wf_obj q
  /\ (forall k, obj_get k p = obj_get k q)
  /\ paramsAsText None p <> paramsAsText None q
  /\ findIndex (same_call (paramsAsText None p) "things")
       [started "things" (paramsAsText None p) Example.fresh] = Some 0%nat
  /\ findIndex (same_call (paramsAsText None q) "things")
       [started "things" (paramsAsText None p) Example.fresh] = None.
Proof.
  cbv zeta.
  split; [apply (bool_decide_unpack _); vm_compute; reflexivity|].
  split; [apply (bool_decide_unpack _); vm_compute; reflexivity|].
  split.
  { intros k. cbn [obj_get].
    destruct (String.eqb_spec "a" k) as [Ea|Ea];
      destruct (String.eqb_spec "b" k) as [Eb|Eb]; try reflexivity.
    congruence. }
  split; [discriminate|].
  split; reflexivity.
Qed.

(** *** Scheduling branches *)

Lemma debounce_off m : (debounce m <= 0)%Q -> Qltb 0 (debounce m) = false.
Proof. apply Qltb_false. Qed.

Lemma repeat_off m : repeat m <= 1 -> (1 <? repeat m) = false.
Proof. intros H. apply Z.ltb_ge, H. Qed.

Lemma repeatEvery_off m :
  (repeatEvery m == 0)%Q -> Qtruthy (repeatEvery m) = false.
Proof. apply Qtruthy_false. Qed.

Lemma try_block_unscheduled env self options fr :
  unscheduled (fr_m fr) ->
  try_block env self options fr =
  if flag (o_setDefaults (spreadable options))
  then modify (set_defaults (without_setDefaults (spreadable options))) ;;
       return_ RetUndefined
  else attempt env (fr_path fr) (fr_base fr) options (fr_m fr)
         (fr_response fr).
Proof.
  intros (Hd & Hr & He). unfold try_block.
  rewrite (debounce_off _ Hd), (repeat_off _ Hr), (repeatEvery_off _ He).
  reflexivity.
Qed.

(** The state and frame a call starts with. *)
Lemma enter_spec env st path options :
  exists st0,
    enter env st path options =
      ({| fr_m := merged st options;
          fr_response :=
            default (List.length (heap st)) (o_response (merged st options));
          fr_path := fst (joinURL path (baseURL env (merged st options)));
          fr_base := snd (joinURL path (baseURL env (merged st options))) |},
       st0)
    /\ st0 = match o_response (merged st options) with
             | Some _ => st
             | None => set_heap (heap st ++ [[]]) st
             end.
Proof.
  unfold enter, alloc.
  destruct (o_response (merged st options)) as [l|];
    destruct (joinURL path (baseURL env (merged st options)));
    eexists; split; reflexivity.
Qed.

(** C10 (as amended): a call with [setDefaults] true that none of
    [debounce], [repeat] and [repeatEvery] schedules stores the options,
    [setDefaults] taken out, as the defaults and returns [undefined]: no
    request, no log entry, no timer, and every container as it was. *)
Theorem setDefaults_stores_and_returns env st path o :
  o_setDefaults o = Some true ->
  unscheduled (merged st (Some o)) ->
  let r := grab env st path (Some o) in
  snd r = Resolved RetUndefined
  /\ defaults (fst r) = without_setDefaults o
  /\ fetched (fst r) = fetched st
  /\ log (fst r) = log st
  /\ timers (fst r) = timers st
  /\ forall l, (l < List.length (heap st))%nat ->
               heap (fst r) !! l = heap st !! l.
Proof.
  intros Hs Hu r. subst r. rewrite grab_unfold. unfold grab_body.
  destruct (enter_spec env st path (Some o)) as (st0 & -> & Hst0).
  rewrite try_block_unscheduled by exact Hu.
  simpl spreadable. rewrite Hs. simpl.
  unfold run, bind, modify, return_. simpl.
  repeat split; try (subst st0; destruct (o_response _); reflexivity).
  intros l Hl. subst st0. destruct (o_response _); simpl; [reflexivity|].
  apply lookup_app_l. exact Hl.
Qed.

(** A call [{setDefaults: true, debounce: 0, baseURL: "/v2/"}]. *)
Lemma setDefaults_stores_and_returns_witness :
  let o := without_repeatEvery
             (with_debounce 0 Example.new_defaults) in
  o_setDefaults o = Some true
  /\ unscheduled (merged Example.fresh (Some o))
  /\ defaults (fst (grab Example.answering Example.fresh "" (Some o)))
     = without_setDefaults o.
Proof.
  assert (Hu : unscheduled
                 (merged Example.fresh
                    (Some (without_repeatEvery
                             (with_debounce 0 Example.new_defaults))))).
  { repeat split; vm_compute; congruence. }
  split; [reflexivity|]. split; [exact Hu|].
  apply (setDefaults_stores_and_returns Example.answering Example.fresh ""
           (without_repeatEvery (with_debounce 0 Example.new_defaults))
           eq_refl Hu).
Defined.

(** C10 (as stated) fails: with [{setDefaults: true, debounce: 1,
    baseURL: "/v2/"}] the call hands back the debounced function and the
    defaults stay as they were. *)
Lemma setDefaults_behind_debounce :
  let r := grab Example.answering Example.fresh "/things"
             (Some Example.new_defaults) in
  o_setDefaults Example.new_defaults = Some true
  /\ defaults (fst r) = no_options
  /\ defaults (fst r) <> without_setDefaults Example.new_defaults
  /\ snd r <> Resolved RetUndefined.
Proof.
  vm_compute. repeat split; congruence.
Qed.

(** *** Debounce *)

(** A call with a positive [debounce] hands back the function
    [debouncer] made and does nothing else: the function is not called,
    no timer is set, and the request is not made. *)
Lemma debounce_hands_back_the_function env st path options :
  (0 < debounce (merged st options))%Q ->
  let r := grab env st path options in
  (exists task wait, snd r = Resolved (RetFunction task wait))
  /\ fetched (fst r) = fetched st
  /\ timers (fst r) = timers st
  /\ listeners (fst r) = listeners st
  /\ log (fst r) = log st.
Proof.
  intros Hd r. subst r. rewrite grab_unfold. unfold grab_body.
  destruct (enter_spec env st path options) as (st0 & -> & Hst0).
  unfold run, try_block. cbn [fr_m].
  apply Qltb_true in Hd. rewrite Hd. unfold return_.
  split; [eauto|].
  subst st0. destruct (o_response _); repeat split; reflexivity.
Qed.

(** C2 (the code at the failing input): three calls to one path at 0,
    10 and 20 ms with a debounce of 50 ms. Each resolves with a function;
    no timer is set and, a second later, no request has been made. *)
Theorem debounce_burst_runs_nothing :
  let calls :=
    [(0, "/search", Some (Example.debounced "a"));
     (10, "/search", Some (Example.debounced "ab"));
     (10, "/search", Some (Example.debounced "abc"))] in
  let r := grab_each Example.answering Example.fresh calls in
  now (fst r) = now Example.fresh + 20
  /\ timers (fst r) = []
  /\ fetched (later 1000 (fst r)) = []
  /\ log (later 1000 (fst r)) = []
  /\ Forall (fun settled =>
               exists task wait,
                 settled = Resolved (RetFunction task wait)) (snd r).
Proof.
  vm_compute. repeat split; try reflexivity.
  repeat constructor; eauto.
Qed.

(** *** Failures at the boundary *)

(** With an options object the promise never rejects. *)
Lemma grab_resolves_with_options env st path o :
  exists v, snd (grab env st path (Some o)) = Resolved v.
Proof.
  unfold grab.
  assert (H : forall n o st path,
             (depth (Some o) <= n)%nat ->
             exists v, snd (grab_within env n st path (Some o)) = Resolved v).
  { clear. induction n as [|n IH]; intros o st path Hn.
    - unfold depth in Hn. lia.
    - simpl. unfold grab_body.
      destruct (enter env st path (Some o)) as [fr st0].
      destruct (run _ st0) as [st1 [v|msg params]]; [eauto|].
      unfold catch_block.
      destruct (o_retryAttempts o) as [k|] eqn:E; [|eauto].
      destruct (0 <? k) eqn:E0; [|eauto].
      apply IH.
      pose proof (depth_retry o k E ltac:(lia)). lia. }
  apply H. lia.
Qed.

(** C5 (the code at the failing input): [grab("/things")] with the
    options left out, on a network that answers 500. The [catch] block
    reads [options.retryAttempts] of [undefined] and throws: the promise
    rejects, nothing is written in a container or in the log. *)
Theorem failure_without_options_rejects :
  let r := grab Example.failing Example.fresh "/things" None in
  snd r = Rejected (read_of_undefined "retryAttempts")
  /\ List.length (fetched (fst r)) = 1%nat
  /\ Forall (fun e => e_error e = None) (log (fst r))
  /\ Forall (fun c => obj_get "error" c = VUndefined) (heap (fst r)).
Proof.
  vm_compute. repeat split; repeat constructor.
Qed.

(** *** The copy from the cache *)

(** Whenever the branch that copies the cached response is entered, it
    throws: it reads [priorRequest.res], which no entry has. *)
Lemma cached_copy_throws m response prior params st :
  cache m = true ->
  (cacheForTime m == 0)%Q
  \/ within (prior_field st prior e_lastFetchTime) (now st) (cacheForTime m)
     = true ->
  exists st' message,
    unpaginated m response prior params st
    = (st', Stop (Throw message params))
    /\ (message = keys_of_undefined \/ message = read_of_undefined "res")
    /\ fetched st' = fetched st /\ log st' = log st.
Proof.
  intros Hc Hw. unfold unpaginated, bind, update_container, modify, get.
  cbn [fst snd]. rewrite Hc. cbn [andb].
  assert (E : negb (Qtruthy (cacheForTime m))
              || within
                   (prior_field
                      (set_heap (alter obj_clear response (heap st)) st)
                      prior e_lastFetchTime)
                   (now (set_heap (alter obj_clear response (heap st)) st))
                   (cacheForTime m) = true).
  { destruct Hw as [Hw|Hw].
    - apply Qtruthy_false in Hw. rewrite Hw. reflexivity.
    - apply orb_true_iff. right. exact Hw. }
  rewrite E.
  destruct (entry_at _ prior) as [e|]; unfold throw, e_res;
    eexists _, _; (split; [reflexivity|]); auto.
Qed.

(** C1 (the code at the failing input): two calls
    [grab("/things", {method: "GET", cache: true, cacheForTime: 60})],
    each with a container of its own, 5 s apart. The first records its
    response; the second finds it in the window, throws while copying it
    and ends with the error in its container and no request made. *)
Theorem cached_call_throws :
  let st1 :=
    fst (grab Example.answering Example.fresh "/things"
           (Some (Example.cached 0%nat))) in
  let r2 :=
    grab Example.answering (later 5000 st1) "/things"
      (Some (Example.cached 1%nat)) in
  container st1 0%nat
  = [("id", VNum 1); ("name", VStr "a"); ("data", Example.thing)]
  /\ (e_response <$> head (log st1)) = Some (Some 0%nat)
  /\ container (fst r2) 1%nat = [("error", VStr keys_of_undefined)]
  /\ fetched (fst r2) = fetched st1
  /\ snd r2 = Resolved (RetContainer 1%nat).
Proof.
  vm_compute. repeat split; reflexivity.
Qed.

(** *** The phases of an attempt, on every path *)

Ltac run_try :=
  unfold bind, ret, throw, return_, get, modify, when, update_container,
    update_entry, unshift, advance in *;
  cbn [fst snd] in *.

(** Registering the regrab and the scroll listeners touches nothing
    else. *)
Lemma register_regrab_frame env path options m st :
  exists t l,
    register_regrab env path options m st
    = (set_listeners l (set_timers t st), Next tt).
Proof.
  exists (timers (fst (register_regrab env path options m st))),
    (listeners (fst (register_regrab env path options m st))).
  unfold register_regrab. run_try. destruct st.
  destruct (has_window env), (regrabOnStale m && cache m),
    (regrabOnNetwork m), (regrabOnFocus m); reflexivity.
Qed.

Lemma register_scroll_frame env path options m st :
  exists l, register_scroll env path options m st
            = (set_listeners l st, Next tt).
Proof.
  exists (listeners (fst (register_scroll env path options m st))).
  unfold register_scroll. run_try. destruct st.
  destruct (has_window env && _); reflexivity.
Qed.

Lemma attempt_registered env path base options m response st :
  exists t l,
    attempt env path base options m response st
    = (do found <- before_request path m response ;
       let '(text, params, priorRequest) := found in
       do res <- request env path base options m text params ;
       after_response path m response params priorRequest res)
        (set_listeners l (set_timers t st)).
Proof.
  unfold attempt.
  destruct (register_regrab_frame env path options m st) as (t & l & E).
  destruct (register_scroll_frame env path options m
              (set_listeners l (set_timers t st))) as (l' & E').
  exists t, l'. unfold bind at 1 2. rewrite E.
  unfold bind at 1 2. rewrite E'. reflexivity.
Qed.

(** *** Rules for [wp] *)

Section Rules.
Context {A B : Type}.
Implicit Types (Q : State -> A -> Prop) (E : State -> Completion -> Prop).

Lemma wp_ret (a : A) Q E st : Q st a -> wp (ret a) Q E st.
Proof. exact id. Qed.

Lemma wp_throw message params Q E st :
  E st (Throw message params) -> wp (throw message params) Q E st.
Proof. exact id. Qed.

Lemma wp_return v Q E st : E st (Return v) -> wp (return_ v) Q E st.
Proof. exact id. Qed.

Lemma wp_bind (c : Try B) (k : B -> Try A) Q E st :
  wp c (fun st' b => wp (k b) Q E st') E st -> wp (bind c k) Q E st.
Proof.
  unfold wp, bind. destruct (c st) as [st' [b|e]]; exact id.
Qed.

(** Sequencing through an assertion in the middle. *)
Lemma wp_seq (I : State -> B -> Prop) (c : Try B) (k : B -> Try A) Q E st :
  wp c I E st ->
  (forall st' b, I st' b -> wp (k b) Q E st') ->
  wp (bind c k) Q E st.
Proof.
  unfold wp, bind. destruct (c st) as [st' [b|e]]; [|intros H _; exact H].
  intros H K. apply (K st' b H).
Qed.

Lemma wp_mono (c : Try A) Q Q' E E' st :
  wp c Q E st ->
  (forall st' a, Q st' a -> Q' st' a) ->
  (forall st' e, E st' e -> E' st' e) ->
  wp c Q' E' st.
Proof.
  unfold wp. destruct (c st) as [st' [a|e]]; intros H HQ HE; auto.
Qed.
End Rules.

Lemma wp_return_new {A : Type} o (Q : State -> A -> Prop) E st :
  E (set_heap (heap st ++ [o]) st)
    (Return (RetContainer (List.length (heap st)))) ->
  wp (return_new o) Q E st.
Proof. exact id. Qed.

Lemma wp_get Q E st : Q st st -> wp get Q E st.
Proof. exact id. Qed.

Lemma wp_modify f Q E st : Q (f st) tt -> wp (modify f) Q E st.
Proof. exact id. Qed.

(** One step through the code of a computation. *)
Ltac wp_step :=
  lazymatch goal with
  | |- wp (bind _ _) _ _ _ => apply wp_bind
  | |- wp (ret _) _ _ _ => apply wp_ret
  | |- wp get _ _ _ => apply wp_get
  | |- wp (modify _) _ _ _ => apply wp_modify
  | |- wp (throw _ _) _ _ _ => apply wp_throw
  | |- wp (return_ _) _ _ _ => apply wp_return
  | |- wp (return_new _) _ _ _ => apply wp_return_new
  | |- wp (update_container _ _) _ _ _ => unfold update_container
  | |- wp (update_entry _ _) _ _ _ => unfold update_entry
  | |- wp (unshift _) _ _ _ => unfold unshift
  | |- wp (advance _) _ _ _ => unfold advance
  | |- wp (when ?b _) _ _ _ => unfold when
  | |- wp (if ?b then _ else _) _ _ _ => destruct b eqn:?
  | |- wp (match ?x with _ => _ end) _ _ _ => destruct x eqn:?
  | |- wp (let '(_, _) := ?x in _) _ _ _ => destruct x eqn:?
  end.

(** The same, stopping at a branch. *)
Ltac wp_line :=
  lazymatch goal with
  | |- wp (bind _ _) _ _ _ => apply wp_bind
  | |- wp (ret _) _ _ _ => apply wp_ret
  | |- wp get _ _ _ => apply wp_get
  | |- wp (modify _) _ _ _ => apply wp_modify
  | |- wp (throw _ _) _ _ _ => apply wp_throw
  | |- wp (return_ _) _ _ _ => apply wp_return
  | |- wp (return_new _) _ _ _ => apply wp_return_new
  | |- wp (update_container _ _) _ _ _ => unfold update_container
  | |- wp (update_entry _ _) _ _ _ => unfold update_entry
  | |- wp (unshift _) _ _ _ => unfold unshift
  | |- wp (advance _) _ _ _ => unfold advance
  end.

Ltac fields :=
  cbn [heap log defaults mock now fetched timers listeners aborted
       controllers set_heap set_log set_defaults set_now set_fetched
       set_timers set_listeners set_aborted set_controllers fst snd] in *.





Lemma make_signal_made env m params st :
  signal_made env m -> make_signal env m params st = (st, Next tt).
Proof.
  unfold make_signal, signal_made, timeout_ms.
  intros [->|[ms H]]; [reflexivity|].
  destruct (cancelOngoingIfNew m); [reflexivity|].
  destruct (AbortSignal_timeout env (timeout m * 1000));
    [discriminate H | reflexivity].
Qed.

Lemma wp_after_signal {A : Type} env m params (k : Try A) Q E st :
  signal_made env m ->
  wp k Q E st ->
  wp (make_signal env m params ;; k) Q E st.
Proof.
  intros Hs H. unfold wp, bind.
  rewrite (make_signal_made env m params st Hs). exact H.
Qed.










(** *** The catch block *)

(** A call that none of [debounce], [repeat], [repeatEvery] and
    [setDefaults] turns away is one attempt, then the [catch] block when
    the attempt throws. *)
Lemma grab_one_attempt env st path o :
  let fr := fst (enter env st path (Some o)) in
  let st0 := snd (enter env st path (Some o)) in
  unscheduled (merged st (Some o)) ->
  flag (o_setDefaults o) = false ->
  grab env st path (Some o)
  = match run (attempt env (fr_path fr) (fr_base fr) (Some o) (fr_m fr)
                 (fr_response fr)) st0 with
    | (st1, Return v) => (st1, Resolved v)
    | (st1, Throw message params) =>
        catch_block (grab env) (Some o) fr message params st1
    end.
Proof.
  intros fr st0 Hu Hs. rewrite grab_unfold. unfold grab_body.
  subst fr st0.
  pose proof (enter_m env st path (Some o)) as Hm.
  destruct (enter env st path (Some o)) as [fr st0]. cbn [fst snd] in *.
  rewrite try_block_unscheduled by (rewrite Hm; exact Hu).
  cbn [spreadable]. rewrite Hs. reflexivity.
Qed.

(** The [catch] block with no retry left: the error goes to the
    container and to the head of the log. *)
Lemma failure_written env st path o message params st1 :
  let fr := fst (enter env st path (Some o)) in
  let st0 := snd (enter env st path (Some o)) in
  no_retry o ->
  run (try_block env (grab env) (Some o) fr) st0
  = (st1, Throw message params) ->
  let r := grab env st path (Some o) in
  snd r = Resolved (RetContainer (fr_response fr))
  /\ log (fst r) = failed (fr_path fr) message params :: log st1
  /\ heap (fst r) !! fr_response fr
     = (fun c => obj_delete "isLoading" (obj_set "error" (VStr message) c))
         <$> heap st1 !! fr_response fr
  /\ fetched (fst r) = fetched st1.
Proof.
  intros fr st0 Hn Ht r. subst r fr st0.
  rewrite grab_unfold. unfold grab_body.
  destruct (enter env st path (Some o)) as [fr st0]. cbn [fst snd] in *.
  rewrite Ht. unfold catch_block.
  assert (E : forall st', write_error (fr_path fr) (fr_response fr) message
                            params st1 = st' ->
              log st' = failed (fr_path fr) message params :: log st1
              /\ heap st' !! fr_response fr
                 = (fun c => obj_delete "isLoading"
                               (obj_set "error" (VStr message) c))
                     <$> heap st1 !! fr_response fr
              /\ fetched st' = fetched st1).
  { intros st' <-. unfold write_error. fields.
    repeat split. apply list_lookup_alter_eq. }
  destruct (o_retryAttempts o) as [n|] eqn:En.
  - specialize (Hn n En).
    destruct (0 <? n) eqn:E0; [lia|].
    cbn [fst snd]. split; [reflexivity|]. apply E. reflexivity.
  - cbn [fst snd]. split; [reflexivity|]. apply E. reflexivity.
Qed.

(** The [catch] block with a retry left: the call is made again, with
    one retry less, from the state the [try] block left. *)
Lemma failure_retried env st path o k message params st1 :
  let fr := fst (enter env st path (Some o)) in
  let st0 := snd (enter env st path (Some o)) in
  o_retryAttempts o = Some k ->
  0 < k ->
  run (try_block env (grab env) (Some o) fr) st0
  = (st1, Throw message params) ->
  grab env st path (Some o)
  = grab env st1 (fr_path fr) (Some (with_retryAttempts (k - 1) o)).
Proof.
  intros fr st0 Hk Hpos Ht. subst fr st0.
  rewrite grab_unfold at 1. unfold grab_body.
  destruct (enter env st path (Some o)) as [fr st0]. cbn [fst snd] in *.
  rewrite Ht. unfold catch_block. rewrite Hk.
  apply Z.ltb_lt in Hpos. rewrite Hpos. reflexivity.
Qed.

(** C6 (as amended): a call that has an options object it can write
    to, a container that is an object and not a function, and params
    [JSON.stringify] prints, and that ends in failure - its [try] block
    throws, and so does that of every retry made of it - resolves with
    the container; the entry [{path, request, error}] of the last
    failure is put at the head of the log, on what the last [try] block
    left there, and the message is written in the container. *)
Theorem failure_is_logged env st path o fr st1 message params :
  ends_in_failure env st path o fr st1 message params ->
  let r := grab env st path (Some o) in
  snd r = Resolved (RetContainer (fr_response fr))
  /\ log (fst r) = failed (fr_path fr) message params :: log st1
  /\ heap (fst r) !! fr_response fr
     = (fun c => obj_delete "isLoading" (obj_set "error" (VStr message) c))
         <$> heap st1 !! fr_response fr
  /\ fetched (fst r) = fetched st1.
Proof.
  intros H. cbv zeta.
  induction H as [st path o st1 message params Hn Ht
                 |st path o k st' message' params' fr st1 message params
                    Hk Hpos Ht H IH].
  - exact (failure_written env st path o message params st1 Hn Ht).
  - rewrite (failure_retried env st path o k message' params' st' Hk Hpos
               Ht).
    exact IH.
Qed.

(** [grab("/things", {retryAttempts: 1, response})], answered with
    status 500 both times. *)
Lemma failure_is_logged_witness :
  let r := grab Example.failing Example.fresh "/things"
             (Some Example.once_more) in
  snd r = Resolved (RetContainer 0%nat)
  /\ head (log (fst r))
     = Some (failed "things" "HTTP error: 500 Internal Server Error" [])
  /\ List.length (fetched (fst r)) = 2%nat.
Proof.
  assert (E : exists fr st1,
             ends_in_failure Example.failing Example.fresh "/things"
               Example.once_more fr st1
               "HTTP error: 500 Internal Server Error" []
             /\ fr_response fr = 0%nat /\ fr_path fr = "things"
             /\ List.length (fetched st1) = 2%nat).
  { eexists _, _. split.
    - eapply fails_and_retries with (k := 1);
        [reflexivity | lia | vm_compute; reflexivity |].
      eapply fails_at_last.
      + intros k Hk. vm_compute in Hk. injection Hk as <-. lia.
      + vm_compute. reflexivity.
    - repeat split; reflexivity. }
  destruct E as (fr & st1 & E & Hc & Hp & F).
  destruct (failure_is_logged Example.failing Example.fresh "/things"
              Example.once_more fr st1 _ _ E) as (H1 & H2 & _ & H4).
  rewrite Hc in H1. rewrite Hp in H2.
  split; [exact H1|]. split; [rewrite H2; reflexivity|].
  rewrite H4. exact F.
Defined.

(** C6 (as stated) fails: a new call turned away under
    [cancelNewIfOngoing] while an earlier one is in flight resolves with
    the placeholder [{isLoading: true}]; the log gets no entry and no
    error is written anywhere. *)
Lemma call_turned_away_leaves_no_entry :
  let r := grab Example.answering Example.in_flight "/things"
             (Some Example.newest_yields) in
  snd r = Resolved (RetContainer 2%nat)
  /\ container (fst r) 2%nat = [("isLoading", VBool true)]
  /\ log (fst r) = log Example.in_flight
  /\ fetched (fst r) = []
  /\ Forall (fun e => e_error e = None) (log (fst r)).
Proof.
  vm_compute. repeat split; try reflexivity. repeat constructor.
Qed.

(** *** Reading an object after writing it *)

Ltac by_keys :=
  repeat match goal with
         | |- context [String.eqb ?a ?b] =>
             destruct (String.eqb_spec a b); subst
         end;
  cbn [andb orb] in *; try congruence; try reflexivity; auto.

Lemma obj_get_replace k v o k' :
  obj_get k' (obj_replace k v o)
  = if String.eqb k k' && obj_has k o then v else obj_get k' o.
Proof.
  induction o as [|[k0 v0] o IH]; cbn [obj_replace obj_get obj_has].
  - rewrite andb_false_r. reflexivity.
  - destruct (String.eqb_spec k0 k) as [->|Hne]; cbn [obj_get orb].
    + by_keys.
    + rewrite IH. by_keys.
Qed.

Lemma obj_get_insert_index n k v o k' :
  obj_has k o = false ->
  obj_get k' (obj_insert_index n k v o)
  = if String.eqb k k' then v else obj_get k' o.
Proof.
  induction o as [|[k0 v0] o IH];
    cbn [obj_insert_index obj_get obj_has]; [reflexivity|].
  destruct (String.eqb_spec k0 k) as [->|Hne]; cbn [orb]; [discriminate|].
  intros Hh.
  destruct (index_of_key k0) as [n0|]; [destruct (n0 <? n)%N|];
    cbn [obj_get]; try reflexivity.
  rewrite (IH Hh). by_keys.
Qed.

Lemma obj_get_app k v o k' :
  obj_has k o = false ->
  obj_get k' (o ++ [(k, v)])
  = if String.eqb k k' then v else obj_get k' o.
Proof.
  induction o as [|[k0 v0] o IH]; cbn [app obj_get obj_has]; [reflexivity|].
  destruct (String.eqb_spec k0 k) as [->|Hne]; cbn [orb]; [discriminate|].
  intros Hh. rewrite (IH Hh). by_keys.
Qed.

(** [o[k] = v; o[k']] *)
Lemma obj_get_set k v o k' :
  obj_get k' (obj_set k v o)
  = if String.eqb k k' then v else obj_get k' o.
Proof.
  unfold obj_set. destruct (obj_has k o) eqn:Hh.
  - rewrite obj_get_replace, Hh, andb_true_r. reflexivity.
  - destruct (index_of_key k).
    + apply obj_get_insert_index, Hh.
    + apply obj_get_app, Hh.
Qed.

(** [delete o[k]; o[k']] for another key *)
Lemma obj_get_delete_ne k o k' :
  k <> k' -> obj_get k' (obj_delete k o) = obj_get k' o.
Proof.
  intros Hne. induction o as [|[k0 v0] o IH]; cbn [obj_delete obj_get];
    [reflexivity|].
  destruct (String.eqb_spec k0 k) as [->|Hne0]; cbn [obj_get].
  - by_keys.
  - rewrite IH. reflexivity.
Qed.

(** *** Options of a retry *)


(** *** Assignments *)



(** *** The signal and the mock handler *)


Lemma unmocked_same st st' path :
  mock st' = mock st -> unmocked st path -> unmocked st' path.
Proof. unfold unmocked, mock_lookup. intros ->. exact id. Qed.


(** *** Joining the URL again, as a retry does *)




(** *** An attempt that reaches the network *)




Lemma wp_run (c : Try Returned) (E : State -> Completion -> Prop) st :
  wp c (fun st' v => E st' (Return v)) E st ->
  E (fst (run c st)) (snd (run c st)).
Proof.
  unfold wp, run. destruct (c st) as [st' [v|e]]; exact id.
Qed.





(** *** The look into the history after a write to an entry *)


(** *** An attempt inside the rate-limit window *)






(** C4 (the code at the failing input): two calls
    [grab("/things", {rateLimit: 5, response})], a second apart, on a
    network that answers 500. After the first the history holds the
    entry of its start, one second old, inside the window of 5 s; the
    most recent entry is the one of the failure, which is written without
    a time stamp, so the second call is not limited and sends its
    request: two requests within the 5 s the option sets as the minimum
    between requests. *)
Theorem older_entry_does_not_limit :
  let st := Example.unanswered in
  let r := grab Example.failing st "/things" (Some Example.limited) in
  (exists i e t,
      log st !! i = Some e
      /\ same_call "{}" "things" e = true
      /\ e_lastFetchTime e = Some t
      /\ now st - 1000 * 5 < t)
  /\ List.length (fetched st) = 1%nat
  /\ List.length (fetched (fst r)) = 2%nat
  /\ obj_get "error" (container (fst r) 0%nat)
     = VStr "HTTP error: 500 Internal Server Error".
Proof.
  split.
  - exists 1%nat. eexists _, _.
    split; [vm_compute; reflexivity|].
    split; [reflexivity|]. split; [reflexivity|]. vm_compute. reflexivity.
  - vm_compute. repeat split; reflexivity.
Qed.

(** *** Merging a page into the container *)




Lemma lookup_alter_default (f : JSObj -> JSObj) c (h : list JSObj) :
  (c < List.length h)%nat ->
  default [] (alter f c h !! c) = f (default [] (h !! c)).
Proof.
  intros Hc. rewrite list_lookup_alter_eq.
  destruct (h !! c) as [x|] eqn:Ex; [reflexivity|].
  apply lookup_ge_None in Ex. lia.
Qed.

(** *** A paginated attempt that is answered *)













(** ** The debounced function *)

Lemma setTimeout_delay_whole env wait :
  1 <= wait <= 2147483647 ->
  setTimeout_delay env (inject_Z wait) = wait.
Proof.
  intros [H1 H2]. unfold setTimeout_delay, whole_in.
  rewrite Qfloor_Z.
  replace (Qeq_bool (inject_Z wait) (inject_Z wait)) with true
    by (symmetry; apply Qeq_bool_iff; reflexivity).
  apply Z.leb_le in H1, H2. rewrite H1, H2. reflexivity.
Qed.

Section DebouncerFacts.
Context {Args : Type}.
Variable env : Env.
Variable due_first : Z -> bool.
Implicit Types (d : Debounced Args) (calls : list (Z * Args)).

Lemma elapse_armed t at_t d id due args :
  pending d = [(id, (due, args))] ->
  timeout_ d = Some id ->
  elapse t at_t d =
  if (due <? t) || at_t && (due =? t)
  then {| timeout_ := Some id; pending := []; timers_set := timers_set d;
          func_calls := func_calls d ++ [(due, args)] |}
  else d.
Proof.
  intros Hp Ht. unfold elapse. rewrite Hp. cbn [List.length run_timers].
  rewrite Hp. cbn [earliest fst snd].
  destruct ((due <? t) || at_t && (due =? t)); [|reflexivity].
  unfold later_, clearTimeout. cbn [timeout_ pending timers_set func_calls].
  rewrite Ht. cbn [timeout_ pending timers_set func_calls].
  rewrite filter_cons_False by (cbn; intros H; apply H; reflexivity).
  reflexivity.
Qed.

(** Once a timer is set there is one timer, the one [timeout] names,
    whatever calls follow. *)
Lemma calls_from_armed wait horizon calls :
  1 <= wait <= 2147483647 ->
  forall d id t0 args,
    pending d = [(id, (t0 + wait, args))] ->
    timeout_ d = Some id ->
    t0 + wait <= horizon ->
    in_order wait ((t0, args) :: calls) ->
    Forall (fun call => call.1 + wait <= horizon) calls ->
    func_calls
      (elapse horizon true (debounced_calls env due_first wait calls d))
    = func_calls d ++ trailing wait ((t0, args) :: calls)
    /\ pending
         (elapse horizon true (debounced_calls env due_first wait calls d))
       = [].
Proof.
  intros Hw.
  induction calls as [|[t args'] calls IH];
    intros d id t0 args Hp Ht Hd Ho Hh.
  - cbn [debounced_calls trailing].
    rewrite (elapse_armed horizon true d id _ args Hp Ht).
    replace ((t0 + wait <? horizon) || true && (t0 + wait =? horizon))
      with true by (symmetry; apply orb_true_iff; cbn [andb];
                    rewrite Z.ltb_lt, Z.eqb_eq; lia).
    cbn [func_calls pending]. auto.
  - apply Forall_cons in Hh as [Hh1 Hh]. cbn [fst] in Hh1.
    cbn [in_order] in Ho. destruct Ho as (Hle & Hne & Ho).
    cbn [debounced_calls].
    rewrite (elapse_armed t (due_first t) d id _ args Hp Ht).
    replace (due_first t && (t0 + wait =? t)) with false
      by (symmetry; apply andb_false_iff; right; apply Z.eqb_neq; lia).
    rewrite orb_false_r.
    change (trailing wait ((t0, args) :: (t, args') :: calls))
      with (if t0 + wait <? t
            then (t0 + wait, args) :: trailing wait ((t, args') :: calls)
            else trailing wait ((t, args') :: calls)).
    destruct (t0 + wait <? t).
    + destruct (IH (executedFunction env wait t args'
                      {| timeout_ := Some id; pending := [];
                         timers_set := timers_set d;
                         func_calls :=
                           func_calls d ++ [(t0 + wait, args)] |})
                  (timers_set d) t args')
        as [E1 E2]; [| reflexivity | lia | exact Ho | exact Hh |].
      * unfold executedFunction, clearTimeout.
        cbn [timeout_ pending timers_set filter list_filter app].
        rewrite setTimeout_delay_whole by exact Hw. reflexivity.
      * rewrite E1, E2.
        cbn [executedFunction clearTimeout func_calls timeout_ pending
             timers_set].
        rewrite <- app_assoc. auto.
    + destruct (IH (executedFunction env wait t args' d) (timers_set d) t
                  args')
        as [E1 E2]; [| | lia | exact Ho | exact Hh |].
      * unfold executedFunction, clearTimeout. rewrite Ht.
        cbn [pending timers_set]. rewrite Hp.
        rewrite filter_cons_False by (cbn; intros H; apply H; reflexivity).
        rewrite setTimeout_delay_whole by exact Hw. reflexivity.
      * unfold executedFunction, clearTimeout. rewrite Ht. reflexivity.
      * rewrite E1, E2.
        unfold executedFunction, clearTimeout. rewrite Ht.
        cbn [func_calls]. auto.
Qed.

(** [func] is called for the calls that no other call follows within
    [wait] ms, and for no other. *)
Lemma debounce_run_trailing wait calls horizon :
  1 <= wait <= 2147483647 ->
  in_order wait calls ->
  Forall (fun call => call.1 + wait <= horizon) calls ->
  func_calls (debounce_run env due_first wait calls horizon)
  = trailing wait calls
  /\ pending (debounce_run env due_first wait calls horizon) = [].
Proof.
  intros Hw Ho Hh. unfold debounce_run.
  destruct calls as [|[t args] calls]; [auto|].
  apply Forall_cons in Hh as [Hh1 Hh]. cbn [fst] in Hh1.
  cbn [debounced_calls].
  destruct (calls_from_armed wait horizon calls Hw
              (executedFunction env wait t args
                 (elapse t (due_first t) debouncer))
              0%nat t args) as [E1 E2];
    [| reflexivity | exact Hh1 | exact Ho | exact Hh |].
  - unfold executedFunction, elapse, debouncer, clearTimeout.
    cbn [pending List.length run_timers timeout_ timers_set app].
    rewrite setTimeout_delay_whole by exact Hw. reflexivity.
  - rewrite E1, E2. auto.
Qed.

Lemma burst_in_order wait calls : burst wait calls -> in_order wait calls.
Proof.
  induction calls as [|[t a] calls IH]; [exact id|].
  cbn [burst in_order]. destruct calls as [|[t' a'] calls]; [exact id|].
  intros [Ht Hb]. split; [lia|]. split; [lia|]. exact (IH Hb).
Qed.

Lemma trailing_burst wait calls t args :
  burst wait (calls ++ [(t, args)]) ->
  trailing wait (calls ++ [(t, args)]) = [(t + wait, args)].
Proof.
  induction calls as [|[t0 a0] calls IH]; intros Hb; [reflexivity|].
  cbn [app] in *. cbn [burst] in Hb. cbn [trailing].
  destruct (calls ++ [(t, args)]) as [|[t' a'] rest] eqn:E.
  { destruct calls; discriminate E. }
  destruct Hb as [Ht Hb].
  replace (t0 + wait <? t') with false by (symmetry; apply Z.ltb_ge; lia).
  apply IH. exact Hb.
Qed.

Lemma burst_before_horizon wait calls t args horizon :
  burst wait (calls ++ [(t, args)]) ->
  t + wait <= horizon ->
  Forall (fun call => call.1 + wait <= horizon) (calls ++ [(t, args)]).
Proof.
  induction calls as [|[t0 a0] calls IH]; intros Hb Hh.
  - repeat constructor. exact Hh.
  - cbn [app] in *. cbn [burst] in Hb.
    destruct (calls ++ [(t, args)]) as [|[t' a'] rest] eqn:E.
    { destruct calls; discriminate E. }
    destruct Hb as [Ht Hb]. specialize (IH Hb Hh).
    constructor; [|exact IH].
    apply Forall_cons in IH as [IH _]. cbn [fst] in *. lia.
Qed.

(** X1: the function [debouncer] hands back, with [wait] from 1 to
    2147483647 ms, called any number of times in the order of time and
    never at the very instant a timer is due, calls [func] for exactly
    the calls that no other call follows within [wait] ms: once for each,
    [wait] ms after it, with its arguments; when all timers have run none
    is left. *)
Theorem debouncer_runs_the_calls_left_alone wait calls horizon :
  1 <= wait <= 2147483647 ->
  in_order wait calls ->
  Forall (fun call => call.1 + wait <= horizon) calls ->
  func_calls (debounce_run env due_first wait calls horizon)
  = trailing wait calls
  /\ pending (debounce_run env due_first wait calls horizon) = [].
Proof.
  intros Hw Ho Hh.
  exact (debounce_run_trailing wait calls horizon Hw Ho Hh).
Qed.

(** X2: of a burst of calls, each less than [wait] ms after the one
    before, with [wait] from 1 to 2147483647 ms, only the last one gets
    to [func]: [func] is called once, [wait] ms after the last call, with
    the arguments of the last call. *)
Theorem debouncer_runs_only_the_last_of_a_burst wait calls t args horizon :
  1 <= wait <= 2147483647 ->
  burst wait (calls ++ [(t, args)]) ->
  t + wait <= horizon ->
  func_calls (debounce_run env due_first wait (calls ++ [(t, args)]) horizon)
  = [(t + wait, args)].
Proof.
  intros Hw Hb Hh.
  destruct (debounce_run_trailing wait (calls ++ [(t, args)]) horizon Hw
              (burst_in_order wait _ Hb)
              (burst_before_horizon wait calls t args horizon Hb Hh))
    as [E _].
  rewrite E. apply trailing_burst. exact Hb.
Qed.
End DebouncerFacts.

(** Calls at 0, 10 and 80 ms with 50 ms to wait: the second and the
    third run. *)
Lemma debouncer_runs_the_calls_left_alone_witness :
  func_calls
    (debounce_run Example.answering (fun _ => false) 50
       [(0, "a"); (10, "ab"); (80, "abc")] 1000)
  = [(60, "ab"); (130, "abc")].
Proof.
  apply (debouncer_runs_the_calls_left_alone Example.answering
           (fun _ => false) 50 [(0, "a"); (10, "ab"); (80, "abc")] 1000).
  - lia.
  - cbn. lia.
  - repeat constructor; cbn; lia.
Defined.

(** Calls at 0, 10 and 20 ms with 50 ms to wait. *)
Lemma debouncer_runs_only_the_last_of_a_burst_witness :
  func_calls
    (debounce_run Example.browser (fun _ => true) 50
       [(0, "a"); (10, "ab"); (20, "abc")] 1000)
  = [(70, "abc")].
Proof.
  apply (debouncer_runs_only_the_last_of_a_burst Example.browser
           (fun _ => true) 50 [(0, "a"); (10, "ab")] 20 "abc" 1000).
  - lia.
  - cbn. lia.
  - lia.
Defined.

(** ** What a call leaves as it was *)

Lemma footprint_refl w sd st : footprint w sd st st.
Proof. repeat split; reflexivity. Qed.

Lemma footprint_trans w sd st1 st2 st3 :
  footprint w sd st1 st2 -> footprint w sd st2 st3 -> footprint w sd st1 st3.
Proof.
  intros (A1 & A2 & A3 & A4) (B1 & B2 & B3 & B4).
  repeat split; try congruence.
  - etransitivity; eassumption.
  - intros H. rewrite B3, A3; auto.
  - intros H. rewrite B4, A4; auto.
Qed.

Lemma calls_of_alter f i l :
  (forall e, e_path (f e) = e_path e /\ e_request (f e) = e_request e) ->
  calls_of (alter f i l) = calls_of l.
Proof.
  intros Hf. unfold calls_of. revert i.
  induction l as [|e l IH]; intros [|i]; cbn [alter list_alter map];
    try reflexivity.
  - destruct (Hf e) as [-> ->]. reflexivity.
  - f_equal. apply IH.
Qed.

Lemma calls_of_set_currentPage v i l :
  calls_of (alter (set_currentPage v) i l) = calls_of l.
Proof. apply calls_of_alter. intros e. split; reflexivity. Qed.

Lemma calls_of_delete_controller i l :
  calls_of (alter delete_controller i l) = calls_of l.
Proof. apply calls_of_alter. intros e. split; reflexivity. Qed.

(** A step that touches none of the four, or adds an entry. *)
Ltac footprint_step :=
  fields;
  repeat split; fields;
  rewrite ?calls_of_set_currentPage, ?calls_of_delete_controller;
  try reflexivity; try congruence;
  try (cbn [calls_of map]; apply suffix_cons_r; fold calls_of;
       rewrite ?calls_of_set_currentPage, ?calls_of_delete_controller;
       reflexivity).

Lemma register_regrab_footprint env path options m sd st :
  wp (register_regrab env path options m)
    (fun st' _ => footprint (has_window env) sd st st')
    (fun st' _ => footprint (has_window env) sd st st') st.
Proof.
  unfold register_regrab.
  destruct (has_window env) eqn:Ew; cbn [andb];
    repeat (wp_step; fields); footprint_step.
Qed.

Lemma register_scroll_footprint env path options m sd st :
  wp (register_scroll env path options m)
    (fun st' _ => footprint (has_window env) sd st st')
    (fun st' _ => footprint (has_window env) sd st st') st.
Proof.
  unfold register_scroll.
  destruct (has_window env) eqn:Ew; cbn [andb];
    repeat (wp_step; fields); footprint_step.
Qed.

Lemma before_request_footprint path m response w sd st :
  wp (before_request path m response)
    (fun st' _ => footprint w sd st st')
    (fun st' _ => footprint w sd st st') st.
Proof.
  unfold before_request, unpaginated, next_page, enforce_rateLimit,
    cancel_duplicates, track, e_res.
  repeat (wp_step; fields); footprint_step.
Qed.

Lemma request_footprint env path base options m text params w sd st :
  wp (request env path base options m text params)
    (fun st' _ => footprint w sd st st')
    (fun st' _ => footprint w sd st st') st.
Proof.
  unfold request, make_signal.
  destruct (cancelOngoingIfNew m);
    [|destruct (AbortSignal_timeout env (timeout m * 1000))];
    repeat (wp_step; fields); footprint_step.
Qed.

Lemma after_response_footprint path m response params prior res w sd st :
  wp (after_response path m response params prior res)
    (fun st' _ => footprint w sd st st')
    (fun st' _ => footprint w sd st st') st.
Proof.
  unfold after_response, store.
  repeat (wp_step; fields); footprint_step.
Qed.

Lemma wp_then {A B : Type} (R : State -> State -> Prop)
  (c : Try B) (k : B -> Try A) st :
  (forall st1 st2 st3, R st1 st2 -> R st2 st3 -> R st1 st3) ->
  wp c (fun st' _ => R st st') (fun st' _ => R st st') st ->
  (forall st' b, wp (k b) (fun st'' _ => R st' st'')
                   (fun st'' _ => R st' st'') st') ->
  wp (bind c k) (fun st' _ => R st st') (fun st' _ => R st st') st.
Proof.
  intros Ht Hc Hk. eapply wp_seq; [exact Hc|].
  intros st' b H. cbv beta in H.
  eapply wp_mono; [apply Hk | |]; intros; eapply Ht; eassumption.
Qed.

Lemma attempt_footprint env path base options m response sd st :
  wp (attempt env path base options m response)
    (fun st' _ => footprint (has_window env) sd st st')
    (fun st' _ => footprint (has_window env) sd st st') st.
Proof.
  unfold attempt.
  apply wp_then; [apply footprint_trans | apply register_regrab_footprint |].
  intros st0 _.
  apply wp_then; [apply footprint_trans | apply register_scroll_footprint |].
  intros st1 _.
  apply wp_then; [apply footprint_trans | apply before_request_footprint |].
  intros st2 [[text params] prior].
  apply wp_then; [apply footprint_trans | apply request_footprint |].
  intros st3 res. apply after_response_footprint.
Qed.

Lemma repeat_calls_footprint w sd self n path again params :
  (forall st p, footprint w sd st (fst (self st p (Some again)))) ->
  forall st,
    wp (repeat_calls self n path again params)
      (fun st' _ => footprint w sd st st')
      (fun st' _ => footprint w sd st st') st.
Proof.
  intros Hself. induction n as [|n IH]; intros st.
  - apply wp_ret, footprint_refl.
  - unfold wp. cbn [repeat_calls].
    pose proof (Hself st path) as H.
    destruct (self st path (Some again)) as [st1 [v|message]];
      cbn [fst] in H; [|exact H].
    specialize (IH st1). unfold wp in IH.
    destruct (repeat_calls self n path again params st1) as [st2 [[]|e]];
      eapply footprint_trans; eassumption.
Qed.

Lemma try_block_footprint env self options fr st :
  let sd := flag (o_setDefaults (spreadable options)) in
  (forall o' st p,
      flag (o_setDefaults o') = sd ->
      footprint (has_window env) sd st (fst (self st p (Some o')))) ->
  wp (try_block env self options fr)
    (fun st' _ => footprint (has_window env) sd st st')
    (fun st' _ => footprint (has_window env) sd st st') st.
Proof.
  intros sd Hself. unfold try_block.
  destruct (Qltb 0 (debounce (fr_m fr))).
  { apply wp_return, footprint_refl. }
  destruct (1 <? repeat (fr_m fr)).
  { apply wp_then; [apply footprint_trans | |].
    - apply repeat_calls_footprint. intros st' p. apply Hself. reflexivity.
    - intros st' _. apply wp_return, footprint_refl. }
  destruct (Qtruthy (repeatEvery (fr_m fr))).
  { repeat (wp_step; fields). footprint_step. }
  destruct (flag (o_setDefaults (spreadable options))) eqn:Esd.
  { repeat (wp_step; fields). subst sd. footprint_step. }
  apply attempt_footprint.
Qed.

Lemma grab_within_footprint env n :
  forall options st path,
    footprint (has_window env) (flag (o_setDefaults (spreadable options)))
      st (fst (grab_within env n st path options)).
Proof.
  induction n as [|n IH]; intros options st path.
  - apply footprint_refl.
  - cbn [grab_within]. unfold grab_body.
    destruct (enter_spec env st path options) as (st0 & -> & Hst0).
    assert (H0 : footprint (has_window env)
                   (flag (o_setDefaults (spreadable options))) st st0).
    { subst st0. destruct (o_response _); footprint_step. }
    match goal with
    | |- context [run (try_block env ?self options ?fr) st0] =>
        pose proof (wp_run (try_block env self options fr)
                      (fun st' _ =>
                         footprint (has_window env)
                           (flag (o_setDefaults (spreadable options)))
                           st0 st') st0) as R;
        destruct (run (try_block env self options fr) st0)
          as [st1 [v|message params]] eqn:Er
    end; cbn [fst snd] in R.
    + cbn [fst]. eapply footprint_trans; [exact H0|]. apply R.
      eapply wp_mono; [apply try_block_footprint | auto | auto].
      intros o' st' p Ho'. specialize (IH (Some o') st' p).
      cbn [spreadable] in IH. rewrite Ho' in IH. exact IH.
    + assert (H1 : footprint (has_window env)
                     (flag (o_setDefaults (spreadable options))) st st1).
      { eapply footprint_trans; [exact H0|]. apply R.
        eapply wp_mono; [apply try_block_footprint | auto | auto].
        intros o' st' p Ho'. specialize (IH (Some o') st' p).
        cbn [spreadable] in IH. rewrite Ho' in IH. exact IH. }
      unfold catch_block. cbn [fr_path fr_response].
      destruct options as [o|]; [|exact H1].
      assert (Hw :
                 footprint (has_window env) (flag (o_setDefaults o)) st1
                   (write_error
                      (joinURL path (baseURL env (merged st (Some o)))).1
                      (default (List.length (heap st))
                         (o_response (merged st (Some o))))
                      message params st1)).
      { unfold write_error. footprint_step. }
      cbn [spreadable] in *.
      destruct (o_retryAttempts o) as [k|];
        [destruct (0 <? k)|]; cbn [fst];
        try (eapply footprint_trans; [exact H1 | exact Hw]).
      eapply footprint_trans; [exact H1|].
      specialize (IH (Some (with_retryAttempts (k - 1) o)) st1
                    (joinURL path (baseURL env (merged st (Some o)))).1).
      exact IH.
Qed.

(** X3: whatever the call and however it ends, [grab] never writes
    [grab.mock]; it only adds to the history, at its head, and never
    rewrites the path or the request of an entry; where there is no
    [window] it registers no listener; and it leaves [grab.defaults] as it
    was unless [setDefaults] is set. *)
Theorem grab_footprint env st path options :
  footprint (has_window env) (flag (o_setDefaults (spreadable options)))
    st (fst (grab env st path options)).
Proof.
  unfold grab. apply grab_within_footprint.
Qed.

(** ** The ends of a call *)

(** X4: a call that is given an options object of the kind held here
    (a plain object that can be written to, with no hook and no logger of
    its own, whose [response] is left out or an object and not a
    function, and whose parameters are values [JSON.stringify] prints)
    never rejects: whatever such options, the state and the network, the
    promise resolves (with the container, with [undefined], or with the
    function [debouncer] made). *)
Theorem options_given_never_rejects env st path o :
  exists v, snd (grab env st path (Some o)) = Resolved v.
Proof.
  destruct (grab_resolves_with_options env st path o) as [v Hv].
  exists v. exact Hv.
Qed.

(** X5: a function made by [grab.instance], which is what [globalThis.grab]
    is outside a browser, called with no options or with options of the
    kind held here (no hook and no logger of their own, [response] left
    out or an object and not a function, parameters that are values
    [JSON.stringify] prints), never rejects: it always gives [grab] an
    options object, a new one, made by a spread. *)
Theorem instance_never_rejects env instance_defaults st path options :
  exists v,
    snd (instance env instance_defaults st path options) = Resolved v.
Proof.
  unfold instance.
  destruct (grab_resolves_with_options env st path
              (spread_options (spreadable instance_defaults)
                 (spreadable options))) as [v Hv].
  exists v. exact Hv.
Qed.

(** X6: a call whose [debounce] is positive, be it set in the options or
    in [grab.defaults], resolves with the function [debouncer] made and
    does nothing else: no timer is set, no request is made, no listener
    is registered and nothing is added to the history. *)
Theorem debounced_call_only_hands_back_a_function env st path options :
  (0 < debounce (merged st options))%Q ->
  let r := grab env st path options in
  (exists task wait, snd r = Resolved (RetFunction task wait))
  /\ fetched (fst r) = fetched st
  /\ timers (fst r) = timers st
  /\ listeners (fst r) = listeners st
  /\ log (fst r) = log st.
Proof.
  intros Hd. exact (debounce_hands_back_the_function env st path options Hd).
Qed.

(** [grab("/search", {debounce: 0.05, response, q: "a"})] *)
Lemma debounced_call_only_hands_back_a_function_witness :
  let r := grab Example.answering Example.fresh "/search"
             (Some (Example.debounced "a")) in
  (exists task wait, snd r = Resolved (RetFunction task wait))
  /\ fetched (fst r) = [].
Proof.
  destruct (debounced_call_only_hands_back_a_function Example.answering
              Example.fresh "/search" (Some (Example.debounced "a")))
    as (H1 & H2 & _).
  - vm_compute. reflexivity.
  - cbv zeta in *. split; [exact H1 | exact H2].
Defined.

(** *** [repeatEvery] *)

(** X7: a call with [repeatEvery] set (and no debounce, no repeat above
    1) sets one interval of [repeatEvery] seconds for the joined path and
    resolves with the container at once: the call itself makes no request
    and adds nothing to the history. *)
Theorem repeatEvery_only_sets_an_interval env st path options :
  let m := merged st options in
  (debounce m <= 0)%Q ->
  repeat m <= 1 ->
  ~ (repeatEvery m == 0)%Q ->
  let r := grab env st path options in
  (exists task,
      timers (fst r) = timers st ++ [SetInterval (repeatEvery m * 1000) task]
      /\ d_path task = (joinURL path (baseURL env m)).1)
  /\ snd r
     = Resolved (RetContainer
                   (default (List.length (heap st)) (o_response m)))
  /\ fetched (fst r) = fetched st
  /\ log (fst r) = log st
  /\ listeners (fst r) = listeners st
  /\ defaults (fst r) = defaults st.
Proof.
  intros m Hd Hr He r. subst r. rewrite grab_unfold. unfold grab_body.
  destruct (enter_spec env st path options) as (st0 & -> & Hst0).
  unfold run, try_block. cbn [fr_m fr_path fr_response].
  fold m. rewrite (debounce_off m Hd), (repeat_off m Hr).
  destruct (Qtruthy (repeatEvery m)) eqn:Et.
  2: { apply Qtruthy_false in Et. contradiction. }
  run_try. subst st0. subst m.
  destruct (o_response (merged st options)); fields; repeat split; eauto.
Qed.

(** [grab("/things", {repeatEvery: 5, response})] *)
Lemma repeatEvery_only_sets_an_interval_witness :
  let r := grab Example.answering Example.fresh "/things"
             (Some Example.polling) in
  List.length (timers (fst r)) = 1%nat
  /\ fetched (fst r) = []
  /\ log (fst r) = [].
Proof.
  destruct (repeatEvery_only_sets_an_interval Example.answering
              Example.fresh "/things" (Some Example.polling))
    as ((task & H1 & _) & _ & H2 & H3 & _).
  - vm_compute. discriminate.
  - vm_compute. discriminate.
  - vm_compute. discriminate.
  - cbv zeta in *. rewrite H1. split; [reflexivity|].
    split; [exact H2 | exact H3].
Defined.

(** ** Joining the base URL and the path *)

Lemma substring_all t : substring 0 (String.length t) t = t.
Proof.
  induction t as [|c t IH]; cbn; [reflexivity|]. rewrite IH. reflexivity.
Qed.

Lemma substring_end s t :
  substring (String.length s) (String.length t) (s +:+ t) = t.
Proof.
  induction s as [|c s IH]; [apply substring_all | exact IH].
Qed.

Lemma endsWith_app s t : endsWith (s +:+ t) t = true.
Proof.
  unfold endsWith.
  assert (E : String.length (s +:+ t)
              = (String.length s + String.length t)%nat).
  { induction s as [|c s IH]; [reflexivity|].
    change (S (String.length (s +:+ t))
            = S (String.length s + String.length t)).
    rewrite IH. reflexivity. }
  rewrite E.
  replace (String.length s + String.length t - String.length t)%nat
    with (String.length s) by lia.
  rewrite substring_end, String.eqb_refl.
  apply Nat.leb_le. lia.
Qed.

Lemma app_string_assoc (a b c : string) :
  (a +:+ b) +:+ c = a +:+ b +:+ c.
Proof.
  induction a as [|x a IH]; [reflexivity|].
  change (String x ((a +:+ b) +:+ c) = String x (a +:+ b +:+ c)).
  rewrite IH. reflexivity.
Qed.

(** X8: for a path that is not an absolute URL, it makes no difference
    whether the slash between the base URL and the path is written at
    the end of the base URL, at the start of the path, at both or at
    neither: the URL asked for has one slash there. *)
Theorem joinURL_puts_one_slash b0 p0 b p :
  startsWith p0 "/" = false ->
  startsWith p0 "http:" = false ->
  startsWith p0 "https:" = false ->
  endsWith b0 "/" = false ->
  b = b0 \/ b = b0 +:+ "/" ->
  p = p0 \/ p = "/" +:+ p0 ->
  (joinURL p b).2 +:+ (joinURL p b).1 = b0 +:+ "/" +:+ p0.
Proof.
  intros Hs Hh1 Hh2 He [-> | ->] [-> | ->]; unfold joinURL.
  - rewrite Hh1, Hh2, Hs, He. reflexivity.
  - cbn [startsWith Ascii.eqb Bool.eqb andb orb negb]. rewrite He.
    reflexivity.
  - rewrite Hh1, Hh2, Hs, (endsWith_app b0 "/"). cbn [orb andb negb snd fst].
    apply app_string_assoc.
  - cbn [startsWith Ascii.eqb Bool.eqb andb orb negb].
    rewrite (endsWith_app b0 "/"). cbn [andb slice1 snd fst].
    apply app_string_assoc.
Qed.

(** The base ["/api"] or ["/api/"] with the path ["things"] or
    ["/things"]. *)
Lemma joinURL_puts_one_slash_witness :
  (joinURL "/things" "/api/").2 +:+ (joinURL "/things" "/api/").1
  = "/api/things".
Proof.
  apply (joinURL_puts_one_slash "/api" "things" "/api/" "/things");
    try reflexivity; right; reflexivity.
Defined.

(** ** An attempt that is not paginated *)















(** ** A call that is answered *)








(** ** What is sent *)



(** ** A call that fails *)

Lemma catch_without_retry env o fr message params st :
  no_retry o ->
  catch_block (grab env) (Some o) fr message params st
  = (write_error (fr_path fr) (fr_response fr) message params st,
     Resolved (RetContainer (fr_response fr))).
Proof.
  intros Hn. unfold catch_block.
  destruct (o_retryAttempts o) as [k|] eqn:Ek; [|reflexivity].
  specialize (Hn k Ek).
  destruct (0 <? k) eqn:E; [lia | reflexivity].
Qed.

Lemma write_error_reads path c message params st :
  (c < List.length (heap st))%nat ->
  obj_get "error" (container (write_error path c message params st) c)
  = VStr message.
Proof.
  intros Hc. unfold write_error, container. fields.
  rewrite lookup_alter_default by exact Hc.
  rewrite obj_get_delete_ne by discriminate.
  rewrite obj_get_set, String.eqb_refl. reflexivity.
Qed.





(** ** Calls to the same path and parameters *)

(** The part before the request when the call is turned away. *)
Lemma before_request_turned_away path m c st id :
  let text := paramsAsText (paginated m) (o_params m) in
  let prior := findIndex (same_call text path) (log st) in
  cache m = false \/ is_Some (paginated m) ->
  (rateLimit m <= 0)%Q ->
  cancelOngoingIfNew m = false ->
  cancelNewIfOngoing m = true ->
  prior_field st prior e_controller = Some id ->
  (c < List.length (heap st))%nat ->
  wp (before_request path m c)
    (fun _ _ => False)
    (fun st' e =>
       e = Return (RetContainer (List.length (heap st)))
       /\ container st' (List.length (heap st)) = [("isLoading", VBool true)]
       /\ obj_get "isLoading" (container st' c) = VBool true
       /\ fetched st' = fetched st
       /\ calls_of (log st') = calls_of (log st)
       /\ aborted st' = aborted st)
    st.
Proof.
  intros text prior Hc Hr Ho Hn Hp Hlen.
  apply Qltb_false in Hr.
  unfold before_request, unpaginated, next_page, enforce_rateLimit,
    cancel_duplicates, track, e_res.
  rewrite Hr, Ho, Hn. fold text.
  unfold prior_field, entry_at in *. subst prior.
  wp_line. wp_line.
  destruct (findIndex (same_call text path) (log st)) as [i|] eqn:Ei;
    [|discriminate].
  destruct (log st !! i) as [e0|] eqn:E0; [|discriminate].
  cbn [andb].
  destruct (paginated m) as [key|] eqn:Ep.
  - repeat (wp_line; fields). rewrite E0. cbn [andb].
    repeat (wp_line; fields).
    rewrite list_lookup_alter_eq, E0. cbn [fmap option_fmap option_map].
    change (e_controller (set_currentPage _ e0)) with (e_controller e0).
    rewrite Hp.
    repeat (wp_line; fields).
    unfold container. fields.
    rewrite !length_alter.
    rewrite list_lookup_middle by (rewrite !length_alter; reflexivity).
    rewrite lookup_app_l by (rewrite !length_alter; exact Hlen).
    rewrite !list_lookup_alter_eq.
    rewrite calls_of_set_currentPage.
    destruct (heap st !! c) eqn:E1; cbn;
      [|apply lookup_ge_None in E1; lia].
    rewrite obj_get_set, String.eqb_refl. repeat split; reflexivity.
  - destruct Hc as [Hc|[? Hc]]; [|discriminate]. rewrite Hc. cbn [andb].
    repeat (wp_line; fields). rewrite E0, Hp.
    repeat (wp_line; fields).
    unfold container. fields.
    rewrite !length_alter.
    rewrite list_lookup_middle by (rewrite !length_alter; reflexivity).
    rewrite lookup_app_l by (rewrite !length_alter; exact Hlen).
    rewrite !list_lookup_alter_eq.
    destruct (heap st !! c) eqn:E1; cbn;
      [|apply lookup_ge_None in E1; lia].
    rewrite obj_get_set, String.eqb_refl. repeat split; reflexivity.
Qed.

(** X13: a new call with [cancelNewIfOngoing] (and without
    [cancelOngoingIfNew]) that finds its path and parameters in the
    history with a controller still attached is turned away: it resolves
    with a new object [{isLoading: true}], not with the container; no
    request is made and no entry is added to the history; the caller's
    container is left marked [isLoading]. *)
Theorem new_call_yields_to_the_ongoing env st path o id :
  let m := merged st (Some o) in
  let joined := (joinURL path (baseURL env m)).1 in
  let text := paramsAsText (paginated m) (o_params m) in
  let c := default (List.length (heap st)) (o_response m) in
  unscheduled m ->
  flag (o_setDefaults o) = false ->
  cache m = false \/ is_Some (paginated m) ->
  (rateLimit m <= 0)%Q ->
  cancelOngoingIfNew m = false ->
  cancelNewIfOngoing m = true ->
  prior_field st (findIndex (same_call text joined) (log st)) e_controller
  = Some id ->
  (forall c', o_response m = Some c' -> (c' < List.length (heap st))%nat) ->
  let r := grab env st path (Some o) in
  exists placeholder,
    snd r = Resolved (RetContainer placeholder)
    /\ placeholder <> c
    /\ container (fst r) placeholder = [("isLoading", VBool true)]
    /\ obj_get "isLoading" (container (fst r) c) = VBool true
    /\ fetched (fst r) = fetched st
    /\ calls_of (log (fst r)) = calls_of (log st).
Proof.
  intros m joined text c Hu Hs Hc Hr Ho Hn Hp Hlen r. subst r.
  rewrite (grab_one_attempt env st path o Hu Hs).
  destruct (enter_spec env st path (Some o)) as (st0 & -> & Hst0).
  cbn [fst snd fr_path fr_base fr_m fr_response]. fold m joined c.
  set (base := (joinURL path (baseURL env m)).2).
  assert (H0 : fetched st0 = fetched st /\ log st0 = log st
               /\ (c < List.length (heap st0))%nat).
  { subst st0 c. fold m.
    destruct (o_response m) as [c'|] eqn:Ec; fields;
      repeat split; try reflexivity.
    - apply Hlen. reflexivity.
    - rewrite length_app. cbn. lia. }
  destruct H0 as (Hf0 & Hl0 & Hc0).
  set (E := fun (st1 : State) (e : Completion) =>
    e = Return (RetContainer (List.length (heap st0)))
    /\ container st1 (List.length (heap st0)) = [("isLoading", VBool true)]
    /\ obj_get "isLoading" (container st1 c) = VBool true
    /\ fetched st1 = fetched st
    /\ calls_of (log st1) = calls_of (log st)).
  assert (H : wp (attempt env joined base (Some o) m c)
                (fun _ _ => False) E st0).
  { unfold wp.
    destruct (attempt_registered env joined base (Some o) m c st0)
      as (t & l & ->).
    change (wp (do found <- before_request joined m c ;
                let '(text, params, priorRequest) := found in
                do res <- request env joined base (Some o) m text params ;
                after_response joined m c params priorRequest res)
              (fun _ _ => False) E (set_listeners l (set_timers t st0))).
    eapply wp_seq with (I := fun _ _ => False); [|contradiction].
    eapply wp_mono;
      [apply (before_request_turned_away joined m c
                (set_listeners l (set_timers t st0)) id Hc Hr Ho Hn)
      | contradiction |].
    - unfold prior_field, entry_at in *. fields. rewrite Hl0. exact Hp.
    - exact Hc0.
    - fields. intros st1 e (-> & H1 & H2 & H3 & H4 & _).
      unfold E. rewrite H3, H4, Hf0, Hl0. auto. }
  pose proof (wp_run (attempt env joined base (Some o) m c) E st0) as R.
  destruct (run _ st0) as [st1 e]. cbn [fst snd] in R.
  destruct R as (-> & H1 & H2 & H3 & H4).
  { apply wp_mono with (1 := H); [contradiction | auto]. }
  exists (List.length (heap st0)). cbn [fst snd].
  repeat split; auto. lia.
Qed.

(** A second [grab("/things", {cancelNewIfOngoing: true, response})]
    while the first is in flight. *)
Lemma new_call_yields_to_the_ongoing_witness :
  let r := grab Example.answering Example.in_flight "/things"
             (Some Example.newest_yields) in
  obj_get "isLoading" (container (fst r) 0%nat) = VBool true
  /\ fetched (fst r) = [].
Proof.
  destruct (new_call_yields_to_the_ongoing Example.answering
              Example.in_flight "/things" Example.newest_yields 0%nat)
    as (placeholder & _ & _ & _ & H4 & H5 & _).
  - repeat split; vm_compute; congruence.
  - reflexivity.
  - left. reflexivity.
  - vm_compute. congruence.
  - reflexivity.
  - reflexivity.
  - vm_compute. reflexivity.
  - intros c' Hc'. vm_compute in Hc'. injection Hc' as <-. vm_compute. lia.
  - cbv zeta in *. split; [exact H4 | exact H5].
Defined.

(** *** [cancelOngoingIfNew] *)

Lemma before_request_aborts path m c st id :
  let text := paramsAsText (paginated m) (o_params m) in
  let prior := findIndex (same_call text path) (log st) in
  cache m = false \/ is_Some (paginated m) ->
  (rateLimit m <= 0)%Q ->
  cancelOngoingIfNew m = true ->
  prior_field st prior e_controller = Some id ->
  wp (before_request path m c)
    (fun st' _ =>
       aborted st' = aborted st ++ [id]
       /\ fetched st' = fetched st /\ mock st' = mock st
       /\ List.length (heap st') = List.length (heap st))
    (fun _ _ => False) st.
Proof.
  intros text prior Hc Hr Ho Hp.
  apply Qltb_false in Hr.
  unfold before_request, unpaginated, next_page, enforce_rateLimit,
    cancel_duplicates, track, e_res.
  rewrite Hr, Ho. fold text.
  unfold prior_field, entry_at in *. subst prior.
  wp_line. wp_line.
  destruct (findIndex (same_call text path) (log st)) as [i|] eqn:Ei;
    [|discriminate].
  destruct (log st !! i) as [e0|] eqn:E0; [|discriminate].
  cbn [andb].
  destruct (paginated m) as [key|] eqn:Ep.
  - repeat (wp_line; fields). rewrite E0. cbn [andb].
    repeat (wp_line; fields).
    rewrite list_lookup_alter_eq, E0. cbn [fmap option_fmap option_map].
    change (e_controller (set_currentPage _ e0)) with (e_controller e0).
    rewrite Hp.
    repeat (wp_line; fields).
    rewrite !length_alter. repeat split; reflexivity.
  - destruct Hc as [Hc|[? Hc]]; [|discriminate]. rewrite Hc. cbn [andb].
    repeat (wp_line; fields). rewrite E0, Hp.
    repeat (wp_line; fields).
    rewrite !length_alter. repeat split; reflexivity.
Qed.

(** Without a mock handler the request is made, whatever comes back. *)
Lemma request_sends_once env path base options m text params st :
  signal_made env m ->
  unmocked st path ->
  let sent st' :=
    aborted st' = aborted st
    /\ List.length (fetched st') = S (List.length (fetched st))
    /\ List.length (heap st') = List.length (heap st)
    /\ defaults st' = defaults st /\ mock st' = mock st in
  wp (request env path base options m text params)
    (fun st' _ => sent st') (fun st' _ => sent st') st.
Proof.
  intros Hs Hm sent. unfold request.
  apply wp_after_signal; [exact Hs|].
  unfold mock_for. wp_step. wp_step. unfold unmocked in Hm. rewrite Hm.
  destruct (result (reply_to env _ _));
    repeat (wp_step; fields); unfold sent; fields;
    rewrite length_app; cbn; repeat split; try reflexivity; lia.
Qed.

Lemma after_response_keeps path m c params prior res st :
  let kept st' :=
    aborted st' = aborted st /\ fetched st' = fetched st
    /\ List.length (heap st') = List.length (heap st)
    /\ defaults st' = defaults st /\ mock st' = mock st in
  wp (after_response path m c params prior res)
    (fun st' _ => kept st') (fun st' _ => kept st') st.
Proof.
  intros kept. unfold after_response, store.
  repeat (wp_step; fields); unfold kept; fields;
    rewrite ?length_alter; auto.
Qed.

(** X14: a new call with [cancelOngoingIfNew], with rate limiting off
    and no retry asked for, with caching off or paginated, that no
    scheduling option takes, for whose joined path [grab.mock] has no
    handler, of its own or inherited, and that finds its path and
    parameters in the history with a controller still attached: the
    call aborts that controller, and no other, and goes on with its own
    request. *)
Theorem new_call_aborts_the_ongoing env st path o id :
  let m := merged st (Some o) in
  let joined := (joinURL path (baseURL env m)).1 in
  let text := paramsAsText (paginated m) (o_params m) in
  unscheduled m ->
  flag (o_setDefaults o) = false ->
  cache m = false \/ is_Some (paginated m) ->
  (rateLimit m <= 0)%Q ->
  cancelOngoingIfNew m = true ->
  no_retry o ->
  unmocked st joined ->
  prior_field st (findIndex (same_call text joined) (log st)) e_controller
  = Some id ->
  let r := grab env st path (Some o) in
  aborted (fst r) = aborted st ++ [id]
  /\ List.length (fetched (fst r)) = S (List.length (fetched st)).
Proof.
  intros m joined text Hu Hs Hc Hr Ho Hn Hm Hp r. subst r.
  rewrite (grab_one_attempt env st path o Hu Hs).
  destruct (enter_spec env st path (Some o)) as (st0 & -> & Hst0).
  cbn [fst snd fr_path fr_base fr_m fr_response]. fold m joined.
  set (base := (joinURL path (baseURL env m)).2).
  set (c := default (List.length (heap st)) (o_response m)).
  assert (H0 : fetched st0 = fetched st /\ log st0 = log st
               /\ aborted st0 = aborted st /\ mock st0 = mock st).
  { subst st0. fold m. destruct (o_response m); auto. }
  destruct H0 as (Hf0 & Hl0 & Ha0 & Hm0).
  set (E := fun (st1 : State) (e : Completion) =>
    aborted st1 = aborted st ++ [id]
    /\ List.length (fetched st1) = S (List.length (fetched st))).
  assert (H : wp (attempt env joined base (Some o) m c)
                (fun st1 v => E st1 (Return v)) E st0).
  { unfold wp.
    destruct (attempt_registered env joined base (Some o) m c st0)
      as (t & l & ->).
    change (wp (do found <- before_request joined m c ;
                let '(text, params, priorRequest) := found in
                do res <- request env joined base (Some o) m text params ;
                after_response joined m c params priorRequest res)
              (fun st1 v => E st1 (Return v)) E
              (set_listeners l (set_timers t st0))).
    eapply wp_seq.
    { eapply wp_mono;
        [apply (before_request_aborts joined m c
                  (set_listeners l (set_timers t st0)) id Hc Hr Ho)
        | intros ? ? H; exact H | contradiction].
      unfold prior_field, entry_at in *. fields. rewrite Hl0. exact Hp. }
    fields.
    intros st1 [[text' params] prior] (Ha1 & Hf1 & Hm1 & Hh1).
    eapply wp_seq with
      (I := fun st2 _ =>
              aborted st2 = aborted st ++ [id]
              /\ List.length (fetched st2) = S (List.length (fetched st))).
    - eapply wp_mono;
        [apply (request_sends_once env joined base (Some o) m text' params
                  st1);
         [left; exact Ho
         | apply (unmocked_same st st1); [congruence | exact Hm]]
        | |];
        intros st2 ? (A & F & _); unfold E;
        rewrite A, F, Ha1, Ha0, Hf1, Hf0; auto.
    - intros st2 res (Ha2 & Hf2).
      eapply wp_mono;
        [apply (after_response_keeps joined m c params prior res st2) | |];
        intros st3 ? (A & F & _); unfold E; rewrite A, F; auto. }
  pose proof (wp_run (attempt env joined base (Some o) m c) E st0 H) as R.
  destruct (run _ st0) as [st1 [v|message params]]; cbn [fst snd] in R.
  - exact R.
  - rewrite catch_without_retry by exact Hn. cbn [fst].
    unfold write_error. fields. exact R.
Qed.

(** A second [grab("/things", {cancelOngoingIfNew: true, timeout: 1,
    response})] while the first is in flight. *)
Lemma new_call_aborts_the_ongoing_witness :
  let r := grab Example.answering Example.in_flight "/things"
             (Some Example.oldest_yields) in
  aborted (fst r) = [0%nat]
  /\ List.length (fetched (fst r)) = 1%nat.
Proof.
  apply (new_call_aborts_the_ongoing Example.answering Example.in_flight
           "/things" Example.oldest_yields 0%nat).
  - repeat split; vm_compute; congruence.
  - reflexivity.
  - left. reflexivity.
  - vm_compute. congruence.
  - reflexivity.
  - intros k Hk. discriminate Hk.
  - reflexivity.
  - vm_compute. reflexivity.
Defined.

(** ** The cache *)

Lemma before_request_cache_throws path m c st :
  let text := paramsAsText None (o_params m) in
  paginated m = None ->
  cache m = true ->
  recent_call st text path (cacheForTime m) ->
  wp (before_request path m c)
    (fun _ _ => False)
    (fun st' e =>
       e = Throw keys_of_undefined (o_params m)
       /\ fetched st' = fetched st
       /\ List.length (heap st') = List.length (heap st))
    st.
Proof.
  intros text Ep Ec (i & e & t & Hi & He & Ht & _ & Hw).
  unfold before_request, unpaginated, e_res.
  rewrite Ep, Ec. fold text.
  wp_line. wp_line. rewrite Hi.
  unfold prior_field, entry_at. cbn [andb].
  repeat (wp_line; fields). rewrite He, Ht.
  unfold within. apply Qltb_true in Hw. rewrite Hw, orb_true_r.
  repeat (wp_line; fields). rewrite length_alter. auto.
Qed.

(** X15: a call that is not paginated, with caching on, whose path and
    parameters are found in the history with a time within the last
    [cacheForTime] seconds, fails before any request: the copy from the
    cache reads the property [res], which no entry has. The call resolves
    with the container, whose [error] is that of [Object.keys(undefined)];
    nothing is copied and no request is made. *)
Theorem cache_hit_fails env st path o :
  let m := merged st (Some o) in
  let joined := (joinURL path (baseURL env m)).1 in
  let text := paramsAsText None (o_params m) in
  let c := default (List.length (heap st)) (o_response m) in
  unscheduled m ->
  flag (o_setDefaults o) = false ->
  no_retry o ->
  paginated m = None ->
  cache m = true ->
  recent_call st text joined (cacheForTime m) ->
  (forall c', o_response m = Some c' -> (c' < List.length (heap st))%nat) ->
  let r := grab env st path (Some o) in
  snd r = Resolved (RetContainer c)
  /\ obj_get "error" (container (fst r) c) = VStr keys_of_undefined
  /\ fetched (fst r) = fetched st.
Proof.
  intros m joined text c Hu Hs Hn Ep Ec Hrec Hlen r. subst r.
  rewrite (grab_one_attempt env st path o Hu Hs).
  destruct (enter_spec env st path (Some o)) as (st0 & -> & Hst0).
  cbn [fst snd fr_path fr_base fr_m fr_response]. fold m joined c.
  set (base := (joinURL path (baseURL env m)).2).
  assert (H0 : fetched st0 = fetched st /\ log st0 = log st
               /\ now st0 = now st /\ (c < List.length (heap st0))%nat).
  { subst st0 c. fold m.
    destruct (o_response m) as [c'|] eqn:Eo; fields;
      repeat split; try reflexivity.
    - apply Hlen. reflexivity.
    - rewrite length_app. cbn. lia. }
  destruct H0 as (Hf0 & Hl0 & Hn0 & Hc0).
  set (E := fun (st1 : State) (e : Completion) =>
    e = Throw keys_of_undefined (o_params m)
    /\ fetched st1 = fetched st
    /\ List.length (heap st1) = List.length (heap st0)).
  assert (H : wp (attempt env joined base (Some o) m c)
                (fun _ _ => False) E st0).
  { unfold wp.
    destruct (attempt_registered env joined base (Some o) m c st0)
      as (t & l & ->).
    change (wp (do found <- before_request joined m c ;
                let '(text, params, priorRequest) := found in
                do res <- request env joined base (Some o) m text params ;
                after_response joined m c params priorRequest res)
              (fun _ _ => False) E (set_listeners l (set_timers t st0))).
    eapply wp_seq with (I := fun _ _ => False); [|contradiction].
    eapply wp_mono;
      [apply (before_request_cache_throws joined m c
                (set_listeners l (set_timers t st0)) Ep Ec)
      | contradiction |].
    - destruct Hrec as (i & e & t' & H1 & H2 & H3 & H4 & H5).
      exists i, e, t'. fields. rewrite Hl0, Hn0. auto.
    - fields. intros st1 e (-> & H1 & H2). unfold E.
      rewrite H1, H2, Hf0. auto. }
  pose proof (wp_run (attempt env joined base (Some o) m c) E st0) as R.
  destruct (run _ st0) as [st1 e]. cbn [fst snd] in R.
  destruct R as (-> & Hf1 & Hh1).
  { apply wp_mono with (1 := H); [contradiction | auto]. }
  rewrite catch_without_retry by exact Hn.
  cbn [fst snd fr_path fr_response].
  split; [reflexivity|].
  split; [apply write_error_reads; lia|].
  unfold write_error. fields. exact Hf1.
Qed.

(** The second of two cached calls, 5 s after the first was answered. *)
Lemma cache_hit_fails_witness :
  let st1 :=
    later 5000
      (fst (grab Example.answering Example.fresh "/things"
              (Some (Example.cached 0%nat)))) in
  let r := grab Example.answering st1 "/things"
             (Some (Example.cached 1%nat)) in
  obj_get "error" (container (fst r) 1%nat) = VStr keys_of_undefined
  /\ fetched (fst r) = fetched st1.
Proof.
  destruct (cache_hit_fails Example.answering
              (later 5000
                 (fst (grab Example.answering Example.fresh "/things"
                         (Some (Example.cached 0%nat)))))
              "/things" (Example.cached 1%nat))
    as (_ & H2 & H3).
  - repeat split; vm_compute; congruence.
  - reflexivity.
  - intros k Hk. discriminate Hk.
  - reflexivity.
  - reflexivity.
  - exists 0%nat. eexists _, _.
    split; [vm_compute; reflexivity|].
    split; [vm_compute; reflexivity|].
    split; [reflexivity|]. split; [discriminate|].
    vm_compute. reflexivity.
  - intros c' Hc'. vm_compute in Hc'. injection Hc' as <-. vm_compute. lia.
  - cbv zeta in *. split; [exact H2 | exact H3].
Defined.

(** ** [repeat] *)






(** ** The page a paginated call asks for *)















(** ** The listeners of a call *)

Lemma attempt_listens env path base o m response st :
  has_window env = true ->
  regrabOnNetwork m = true ->
  regrabOnFocus m = false ->
  paginateElement_ m = None ->
  let L := fun st' =>
    listeners st'
    = listeners st
      ++ [{| l_event := "online";
             l_task := {| d_path := path;
                          d_options := with_cache false o |} |}]
    /\ defaults st' = defaults st in
  wp (attempt env path base (Some o) m response)
    (fun st' _ => L st') (fun st' _ => L st') st.
Proof.
  intros Hw Hn Hf He L. unfold attempt.
  eapply wp_seq with (I := fun st' _ => L st').
  { unfold register_regrab, regrab. rewrite Hw, Hn, Hf.
    cbn [when spreadable].
    destruct (regrabOnStale m && cache m);
      repeat (wp_step; fields); split; reflexivity. }
  intros st0 _ (Hl0 & Hd0).
  eapply wp_seq with (I := fun st' _ => L st').
  { unfold register_scroll. rewrite He, Hw.
    rewrite bool_decide_eq_false_2 by (intros [x Hx]; discriminate Hx).
    cbn [andb when]. wp_step. split; assumption. }
  clear st0 Hl0 Hd0. intros st1 _ (Hl1 & Hd1).
  eapply wp_mono with
    (Q := fun st' _ => footprint false false st1 st')
    (E := fun st' _ => footprint false false st1 st').
  - apply wp_then;
      [apply footprint_trans | apply before_request_footprint |].
    intros st2 [[text params] prior].
    apply wp_then; [apply footprint_trans | apply request_footprint |].
    intros st3 res. apply after_response_footprint.
  - intros st' _ (_ & _ & Hl & Hd). split.
    + rewrite Hl by reflexivity. exact Hl1.
    + rewrite Hd by reflexivity. exact Hd1.
  - intros st' _ (_ & _ & Hl & Hd). split.
    + rewrite Hl by reflexivity. exact Hl1.
    + rewrite Hd by reflexivity. exact Hd1.
Qed.

Lemma call_listens env st path o :
  has_window env = true ->
  watches_network (defaults st) o ->
  listeners (fst (grab env st path (Some o)))
  = listeners st ++ [online_regrab env (defaults st) path o]
  /\ defaults (fst (grab env st path (Some o))) = defaults st.
Proof.
  intros Hw (Hu & Hs & Hr & Hn & Hf & He).
  rewrite (grab_one_attempt env st path o Hu Hs).
  destruct (enter_spec env st path (Some o)) as (st0 & -> & Hst0).
  cbn [fst snd fr_path fr_base fr_m fr_response].
  assert (H0 : listeners st0 = listeners st /\ defaults st0 = defaults st).
  { subst st0. destruct (o_response _); fields; split; reflexivity. }
  destruct H0 as (Hl0 & Hd0).
  set (fr := {| fr_m := merged st (Some o) |}).
  pose proof (wp_run
    (attempt env (fr_path fr) (fr_base fr) (Some o) (fr_m fr)
       (fr_response fr))
    (fun st' _ =>
       listeners st'
       = listeners st0
         ++ [{| l_event := "online";
                l_task := {| d_path := fr_path fr;
                             d_options := with_cache false o |} |}]
       /\ defaults st' = defaults st0) st0) as R.
  assert (A : wp (attempt env (fr_path fr) (fr_base fr) (Some o) (fr_m fr)
                    (fr_response fr))
                (fun st' _ =>
                   listeners st'
                   = listeners st0
                     ++ [{| l_event := "online";
                            l_task := {| d_path := fr_path fr;
                                         d_options := with_cache false o |} |}]
                   /\ defaults st' = defaults st0)
                (fun st' _ =>
                   listeners st'
                   = listeners st0
                     ++ [{| l_event := "online";
                            l_task := {| d_path := fr_path fr;
                                         d_options := with_cache false o |} |}]
                   /\ defaults st' = defaults st0) st0).
  { apply (attempt_listens env _ _ o _ _ st0 Hw Hn Hf He). }
  specialize (R A). clear A.
  cbn [fr_path fr_base fr_m fr_response fr] in R.
  destruct (run _ st0) as [st1 [v|message params]]; cbn [fst snd] in R;
    destruct R as (Hl1 & Hd1).
  - cbn [fst]. rewrite Hl1, Hd1, Hl0, Hd0. split; reflexivity.
  - rewrite (catch_without_retry env o fr message params st1 Hr).
    cbn [fst]. unfold write_error. fields.
    rewrite Hl1, Hd1, Hl0, Hd0. split; reflexivity.
Qed.

Lemma calls_listen env path d :
  has_window env = true ->
  forall calls st,
    defaults st = d ->
    Forall (fun call => watches_network d call.2) calls ->
    listeners
      (fst (grab_each env st
              (map (fun call => (call.1, path, Some call.2)) calls)))
    = listeners st ++ map (fun call => online_regrab env d path call.2) calls.
Proof.
  intros Hw. induction calls as [|[w o] calls IH]; intros st Hd Hcalls.
  - cbn [map grab_each fst]. symmetry. apply app_nil_r.
  - apply Forall_cons in Hcalls as [Hc Hcalls]. cbn [fst snd] in Hc.
    cbn [map grab_each fst snd].
    pose proof (call_listens env (later w st) path o Hw) as G.
    unfold later in G. fields. rewrite Hd in G. specialize (G Hc).
    unfold later.
    destruct (grab env (set_now (now st + w) st) path (Some o))
      as [st1 r1]. cbn [fst snd] in *.
    destruct G as (Hl1 & Hd1).
    specialize (IH st1 Hd1 Hcalls).
    destruct (grab_each env st1
                (map (fun call => (call.1, path, Some call.2)) calls))
      as [st2 rs]. cbn [fst snd] in *.
    rewrite IH, Hl1, <- app_assoc. reflexivity.
Qed.

(** X22: in a browser every call with [regrabOnNetwork] adds a listener
    for ["online"] that makes the call again, whatever becomes of the
    call itself, and none is ever taken away: after a sequence of such
    calls there is one listener for each, in the order of the calls,
    behind those there were. *)
Theorem online_listeners_pile_up env st path calls :
  has_window env = true ->
  Forall (fun call => watches_network (defaults st) call.2) calls ->
  listeners
    (fst (grab_each env st
            (map (fun call => (call.1, path, Some call.2)) calls)))
  = listeners st
    ++ map (fun call => online_regrab env (defaults st) path call.2) calls.
Proof.
  intros Hw Hcalls. apply calls_listen; [exact Hw | reflexivity | exact Hcalls].
Qed.

(** [grab("/things", {regrabOnNetwork: true, response})] three times in a
    browser, 1 s apart: three listeners. *)
Lemma online_listeners_pile_up_witness :
  map l_event
    (listeners
       (fst (grab_each Example.browser Example.fresh
               [(0, "/things", Some Example.watching);
                (1000, "/things", Some Example.watching);
                (1000, "/things", Some Example.watching)])))
  = ["online"; "online"; "online"].
Proof.
  assert (Hc : watches_network (defaults Example.fresh) Example.watching).
  { repeat split; vm_compute; congruence. }
  assert (Hcalls : Forall (fun call : Z * GrabOptions =>
                             watches_network (defaults Example.fresh) call.2)
                     [(0, Example.watching); (1000, Example.watching);
                      (1000, Example.watching)]).
  { apply Forall_cons_2; [exact Hc|].
    apply Forall_cons_2; [exact Hc|].
    apply Forall_cons_2; [exact Hc|]. apply Forall_nil_2. }
  pose proof (online_listeners_pile_up Example.browser Example.fresh "/things"
                [(0, Example.watching); (1000, Example.watching);
                 (1000, Example.watching)] eq_refl Hcalls) as F.
  cbn [map fst snd] in F. rewrite F. reflexivity.
Defined.

(** ** A timeout the platform refuses *)





End Grab.


(** ** Facts about the structure printer *)

Module LogJSONFacts.
Import JS LogJSON.

(** Induction on a value, with the items of an array and the members of
    an object. *)
Lemma JSValue_nested_ind (P : JSValue -> Prop) :
  P VUndefined -> P VNull -> (forall b, P (VBool b)) ->
  (forall n, P (VNum n)) -> (forall s, P (VStr s)) ->
  (forall l, Forall P l -> P (VArr l)) ->
  (forall o, Forall (fun kv => P kv.2) o -> P (VObj o)) ->
  forall v, P v.
Proof.
  intros Hu Hn Hb Hz Hs Ha Ho.
  fix IH 1. intros [| |b|n|s|l|o].
  - exact Hu.
  - exact Hn.
  - apply Hb.
  - apply Hz.
  - apply Hs.
  - apply Ha. induction l as [|x l IHl]; constructor; [apply IH | exact IHl].
  - apply Ho. induction o as [|[k x] o IHo]; constructor;
      [apply IH | exact IHo].
Qed.

Lemma shape_items l :
  shape (VArr l) = VArr (map shape l).
Proof.
  reflexivity.
Qed.

Lemma shape_members o :
  shape (VObj o) = VObj (map (fun kv => (kv.1, shape kv.2)) o).
Proof.
  cbn [shape]. f_equal. induction o as [|[k x] o IH]; [reflexivity|].
  cbn [map fst snd]. rewrite <- IH. reflexivity.
Qed.

Lemma typeof_shape v : typeof (shape v) = typeof v.
Proof. destruct v; reflexivity. Qed.

Lemma getColorForType_shape v : getColorForType (shape v) = getColorForType v.
Proof. destruct v; reflexivity. Qed.

Lemma getTypeString_shape v : getTypeString (shape v) = getTypeString v.
Proof.
  induction v as [| |b|n|s|l IH|o IH] using JSValue_nested_ind;
    try reflexivity.
  rewrite shape_items. destruct l as [|x l]; [reflexivity|].
  cbn [map getTypeString]. apply Forall_cons in IH as [IHx _].
  rewrite IHx. reflexivity.
Qed.

Lemma every_typeof_first_shape l :
  every_typeof_first (map shape l) = every_typeof_first l.
Proof.
  unfold every_typeof_first.
  assert (E : typeof (nth 0 (map shape l) VUndefined)
              = typeof (nth 0 l VUndefined)).
  { destruct l as [|x l]; [reflexivity|]. cbn. apply typeof_shape. }
  rewrite E. clear E. generalize (typeof (nth 0 l VUndefined)). intros t.
  induction l as [|x l IH]; [reflexivity|].
  cbn [map forallb]. rewrite typeof_shape, IH. reflexivity.
Qed.

Lemma property_shape colors pad key value nested last :
  property colors pad key (shape value) nested last
  = property colors pad key value nested last.
Proof.
  unfold property. rewrite getColorForType_shape.
  destruct value; try reflexivity.
Qed.

Lemma map_is_nil {A B : Type} (f : A -> B) (l : list A)
  `{!forall l : list A, Decision (l = [])}
  `{!forall l : list B, Decision (l = [])} :
  bool_decide (map f l = []) = bool_decide (l = []).
Proof.
  destruct l; cbn [map].
  - rewrite !bool_decide_eq_true_2; reflexivity.
  - rewrite !bool_decide_eq_false_2; [reflexivity | discriminate..].
Qed.

(** The printer on a value and on its shape. *)
Lemma printJSONStructure_shape v :
  forall indent colorFormat,
    printJSONStructure (shape v) indent colorFormat
    = printJSONStructure v indent colorFormat.
Proof.
  induction v as [| |b|n|s|l IH|o IH] using JSValue_nested_ind;
    intros indent colorFormat; try reflexivity.
  - rewrite shape_items. cbn [printJSONStructure].
    rewrite every_typeof_first_shape, (map_is_nil shape l).
    destruct (every_typeof_first l).
    + f_equal. f_equal.
      generalize 0%nat.
      induction l as [|x l IHl]; intros index; [reflexivity|].
      apply Forall_cons in IH as [IHx IH].
      cbn [map]. rewrite IHx, property_shape, (map_is_nil shape l).
      rewrite (IHl IH). reflexivity.
    + f_equal. f_equal.
      induction l as [|x l IHl]; [reflexivity|].
      apply Forall_cons in IH as [IHx IH].
      cbn [map]. rewrite IHx, (map_is_nil shape l).
      rewrite (IHl IH). reflexivity.
  - rewrite shape_members. cbn [printJSONStructure].
    rewrite (map_is_nil (fun kv => (kv.1, shape kv.2)) o).
    f_equal. f_equal.
    induction o as [|[k x] o IHo]; [reflexivity|].
    apply Forall_cons in IH as [IHx IH]. cbn [fst snd] in IHx.
    cbn [map fst snd].
    rewrite IHx, property_shape,
      (map_is_nil (fun kv => (kv.1, shape kv.2)) o).
    rewrite (IHo IH). reflexivity.
Qed.

(** X18: [printJSONStructure] shows no value: two values that differ
    only in what their strings, numbers and booleans are (same keys, same
    lengths, same nesting) print the same, at every indent and in both
    color formats. *)
Theorem printJSONStructure_shows_no_value v w indent colorFormat :
  shape v = shape w ->
  printJSONStructure v indent colorFormat
  = printJSONStructure w indent colorFormat.
Proof.
  intros E.
  rewrite <- (printJSONStructure_shape v), <- (printJSONStructure_shape w), E.
  reflexivity.
Qed.

(** [{name: "a", tags: ["x", 1], n: 1}] and [{name: "secret", tags: ["",
    7], n: 42}] *)
Lemma printJSONStructure_shows_no_value_witness :
  printJSONStructure
    (VObj [("name", VStr "a"); ("tags", VArr [VStr "x"; VNum 1]);
           ("n", VNum 1)]) 0 ansi
  = printJSONStructure
      (VObj [("name", VStr "secret"); ("tags", VArr [VStr ""; VNum 7]);
             ("n", VNum 42)]) 0 ansi.
Proof.
  apply (printJSONStructure_shows_no_value
           (VObj [("name", VStr "a"); ("tags", VArr [VStr "x"; VNum 1]);
                  ("n", VNum 1)])
           (VObj [("name", VStr "secret"); ("tags", VArr [VStr ""; VNum 7]);
                  ("n", VNum 42)])).
  reflexivity.
Defined.

Lemma indexed_from_is_nil i (l : list JSValue) :
  bool_decide (indexed_from i l = []) = bool_decide (l = []).
Proof.
  destruct l; cbn [indexed_from].
  - rewrite !bool_decide_eq_true_2; reflexivity.
  - rewrite !bool_decide_eq_false_2; [reflexivity | discriminate..].
Qed.

(** X19: an array whose items all have the [typeof] of the first (an
    empty array too) is not printed as an array: the branch for arrays
    does not return, and the array comes out as the object with the keys
    ["0"], ["1"], ... between braces. *)
Theorem uniform_array_prints_as_object l indent colorFormat :
  every_typeof_first l = true ->
  printJSONStructure (VArr l) indent colorFormat
  = printJSONStructure (VObj (indexed_from 0 l)) indent colorFormat.
Proof.
  intros He. cbn [printJSONStructure]. rewrite He.
  rewrite (indexed_from_is_nil 0 l).
  f_equal. f_equal. clear He.
  generalize 0%nat.
  induction l as [|x l IH]; intros index; [reflexivity|].
  cbn [indexed_from]. rewrite (indexed_from_is_nil (S index) l).
  f_equal. apply IH.
Qed.

(** [["a", "b"]] prints as [{0: "a", 1: "b"}]. *)
Lemma uniform_array_prints_as_object_witness :
  printJSONStructure (VArr [VStr "a"; VStr "b"]) 0 ansi
  = printJSONStructure (VObj [("0", VStr "a"); ("1", VStr "b")]) 0 ansi.
Proof.
  apply (uniform_array_prints_as_object [VStr "a"; VStr "b"] 0 ansi).
  reflexivity.
Defined.

End LogJSONFacts.
